(** * MarketUpdater: the market feed watcher of [main.go]

    A shallow embedding of the watcher (token exchange, websocket session,
    payload decoding, heartbeat loop and reconnection supervisor) together
    with the parts of the Go runtime library it leans on
    ([strconv], [encoding/json], [fmt], [strings]). *)

From Stdlib Require Import ZArith NArith List String Ascii Bool Lia.
From Stdlib Require Import Floats.SpecFloat.
Import ListNotations.

#[local] Set Warnings "-register-all".

Local Open Scope string_scope.
Local Open Scope Z_scope.

(* ================================================================= *)
(** ** Byte strings *)

(** Go strings and [[]byte] are sequences of bytes: [string]. *)

Module Bytes.

Definition code (c : ascii) : Z := Z.of_N (N_of_ascii c).

Definition of_code (z : Z) : ascii := ascii_of_N (Z.to_N z).

Definition in_range (lo hi : Z) (c : ascii) : bool :=
  (lo <=? code c) && (code c <=? hi).

Definition is_digit (c : ascii) : bool := in_range 48 57 c.

Definition digit_val (c : ascii) : Z := code c - 48.

(** The double quote, written by its code. *)
Definition dquote : ascii := of_code 34.

Definition backslash : ascii := of_code 92.

Definition newline : string := String (of_code 10) EmptyString.

(** [q s] is [s] with every apostrophe replaced by a double quote; it is
    only used to write JSON texts legibly. *)
Fixpoint q (s : string) : string :=
  match s with
  | EmptyString => EmptyString
  | String c r => String (if Ascii.eqb c "'"%char then dquote else c) (q r)
  end.

Fixpoint rev_append (acc : list ascii) (tail : string) : string :=
  match acc with
  | [] => tail
  | c :: r => rev_append r (String c tail)
  end.

(** A reversed accumulator of bytes, turned back into a string. *)
Definition of_rev (acc : list ascii) : string := rev_append acc EmptyString.

Fixpoint push_string (s : string) (acc : list ascii) : list ascii :=
  match s with
  | EmptyString => acc
  | String c r => push_string r (c :: acc)
  end.

Fixpoint repeat (s : string) (n : nat) : string :=
  match n with
  | O => EmptyString
  | S k => s ++ repeat s k
  end.

Definition is_empty (s : string) : bool :=
  match s with EmptyString => true | _ => false end.

Fixpoint ends_with_newline (s : string) : bool :=
  match s with
  | EmptyString => false
  | String c EmptyString => Ascii.eqb c (of_code 10)
  | String _ r => ends_with_newline r
  end.

End Bytes.

(* ================================================================= *)
(** ** [strconv]: decimal conversion of integers and of [float64] *)

Module Strconv.
Import Bytes.

(** A [float64] is an IEEE 754 binary64 value. *)
Definition float64 : Type := spec_float.

Definition prec : Z := 53.
Definition emax : Z := 1024.

Definition digit_char (d : Z) : ascii := of_code (48 + d).

(** The last [w] decimal digits of [n]. *)
Fixpoint digits_fixed (w : nat) (n : Z) : string :=
  match w with
  | O => EmptyString
  | S w' => digits_fixed w' (n / 10) ++ String (digit_char (n mod 10)) EmptyString
  end.

Fixpoint utoa_aux (fuel : nat) (n : Z) (acc : string) : string :=
  let acc' := String (digit_char (n mod 10)) acc in
  match fuel with
  | O => acc'
  | S f => if n <? 10 then acc' else utoa_aux f (n / 10) acc'
  end.

(** Decimal digits of a non-negative integer, without leading zeros. *)
Definition utoa (n : Z) : string :=
  utoa_aux (Z.to_nat (Z.log2 n)) n EmptyString.

(** [strconv.Itoa]. *)
Definition Itoa (n : Z) : string :=
  if n <? 0 then String "-"%char (utoa (- n)) else utoa n.

(** [n / d] rounded to the nearest integer, ties to even
    ([n >= 0], [d > 0]). *)
Definition round_half_even (n d : Z) : Z :=
  let q := n / d in
  match (2 * (n mod d)) ?= d with
  | Lt => q
  | Gt => q + 1
  | Eq => if Z.even q then q else q + 1
  end.

(** [m * 2^e * 10^p] rounded to an integer, ties to even: the digits that
    [%.pf] prints. *)
Definition scaled (m : positive) (e : Z) (p : nat) : Z :=
  if 0 <=? e
  then Zpos m * 2 ^ e * 10 ^ Z.of_nat p
  else round_half_even (Zpos m * 10 ^ Z.of_nat p) (2 ^ (- e)).

(** [fmtF]: sign, integer part, and [p] fractional digits of [n / 10^p]. *)
Definition fmtF (neg : bool) (n : Z) (p : nat) : string :=
  (if neg then "-" else EmptyString)
    ++ utoa (n / 10 ^ Z.of_nat p)
    ++ match p with
       | O => EmptyString
       | S _ => String "."%char (digits_fixed p n)
       end.

(** [strconv.FormatFloat(f, 'f', p, 64)]: exact decimal expansion rounded
    to [p] fractional digits, ties to even. *)
Definition FormatFloat_f (f : float64) (p : nat) : string :=
  match f with
  | S754_nan => "NaN"
  | S754_infinity s => if s then "-Inf" else "+Inf"
  | S754_zero s => fmtF s 0 p
  | S754_finite s m e => fmtF s (scaled m e p) p
  end.

(** The binary64 value nearest to [(-1)^neg * mant * 10^e10], ties to even:
    what [strconv.ParseFloat] computes for a decimal literal (the library
    stops reading an exponent after its fifth digit, which only matters
    for literals of more than ten thousand digits). *)
Definition of_decimal (neg : bool) (mant : Z) (e10 : Z) : float64 :=
  match mant with
  | Zpos m =>
      if 0 <=? e10
      then binary_normalize prec emax
             (if neg then Zneg m * 10 ^ e10 else Zpos m * 10 ^ e10) 0 neg
      else
        let '(mz, ez, lz) :=
          SFdiv_core_binary prec emax (Zpos m) 0 (10 ^ (- e10)) 0 in
        binary_round_aux prec emax neg mz ez lz
  | _ => S754_zero neg
  end.

(** Neither an infinity nor a NaN. *)
Definition is_finite (f : float64) : bool :=
  match f with
  | S754_zero _ | S754_finite _ _ _ => true
  | S754_infinity _ | S754_nan => false
  end.

(** [strconv.ParseFloat] on a decimal literal: [None] is [ErrRange]
    (the nearest value is an infinity). *)
Definition ParseFloat (neg : bool) (mant : Z) (e10 : Z) : option float64 :=
  match of_decimal neg mant e10 with
  | S754_infinity _ => None
  | S754_nan => None
  | f => Some f
  end.

End Strconv.

(* ================================================================= *)
(** ** [unicode/utf8] and [unicode/utf16] *)

Module Utf8.
Import Bytes.

(** The bytes of [utf8.RuneError], U+FFFD. *)
Definition RuneError : Z := 65533.

Definition is_cont (lo hi : Z) (c : ascii) : bool := in_range lo hi c.

(** Length of the well-formed multi-byte sequence that starts [s]
    ([utf8.DecodeRune]'s size), or [0] when [s] starts with an ill-formed
    or truncated sequence.  [s] starts with a byte [>= 0x80]. *)
Definition seq_len (s : string) : nat :=
  match s with
  | String c0 (String c1 r1) =>
      let b := code c0 in
      if (194 <=? b) && (b <=? 223) then
        if is_cont 128 191 c1 then 2%nat else 0%nat
      else
        match r1 with
        | String c2 r2 =>
            let second3 :=
              if b =? 224 then is_cont 160 191 c1
              else if b =? 237 then is_cont 128 159 c1
              else if (225 <=? b) && (b <=? 239) then is_cont 128 191 c1
              else false in
            if second3 then
              if is_cont 128 191 c2 then 3%nat else 0%nat
            else
              match r2 with
              | String c3 _ =>
                  let second4 :=
                    if b =? 240 then is_cont 144 191 c1
                    else if b =? 244 then is_cont 128 143 c1
                    else if (241 <=? b) && (b <=? 243) then is_cont 128 191 c1
                    else false in
                  if second4 && is_cont 128 191 c2 && is_cont 128 191 c3
                  then 4%nat else 0%nat
              | EmptyString => 0%nat
              end
        | EmptyString => 0%nat
        end
  | _ => 0%nat
  end.

Definition is_surrogate (r : Z) : bool := (55296 <=? r) && (r <? 57344).

(** [utf8.EncodeRune], as a list of bytes pushed on a reversed
    accumulator. *)
Definition EncodeRune (r : Z) (acc : list ascii) : list ascii :=
  if (0 <=? r) && (r <? 128) then of_code r :: acc
  else if (0 <=? r) && (r <? 2048) then
    of_code (128 + r mod 64) :: of_code (192 + r / 64) :: acc
  else if (r <? 0) || (1114111 <? r) || is_surrogate r then
    of_code 189 :: of_code 191 :: of_code 239 :: acc
  else if r <? 65536 then
    of_code (128 + r mod 64) :: of_code (128 + (r / 64) mod 64)
      :: of_code (224 + r / 4096) :: acc
  else
    of_code (128 + r mod 64) :: of_code (128 + (r / 64) mod 64)
      :: of_code (128 + (r / 4096) mod 64) :: of_code (240 + r / 262144) :: acc.

(** [utf16.DecodeRune]: the code point of a surrogate pair, [None] when the
    pair is not a high surrogate followed by a low one. *)
Definition DecodeSurrogates (r1 r2 : Z) : option Z :=
  if (55296 <=? r1) && (r1 <? 56320) && (56320 <=? r2) && (r2 <? 57344)
  then Some ((r1 - 55296) * 1024 + (r2 - 56320) + 65536)
  else None.

End Utf8.

(* ================================================================= *)
(** ** [encoding/json] *)

(** A Go [error] is modelled by the text its [Error()] method returns.  The
    texts of the errors raised by the library are abbreviated: they carry no
    byte offsets. *)
Definition error : Type := string.

Module Json.
Import Bytes.

(** *** Syntax trees *)

(** A number keeps its sign, its decimal mantissa and its power of ten. *)
Inductive json : Type :=
| JNull
| JBool (b : bool)
| JNumber (neg : bool) (mant e10 : Z)
| JString (s : string)
| JArray (elems : list json)
| JObject (members : list (string * json)).

Definition is_space (c : ascii) : bool :=
  let b := code c in (b =? 32) || (b =? 9) || (b =? 13) || (b =? 10).

Definition hex_val (c : ascii) : option Z :=
  if in_range 48 57 c then Some (code c - 48)
  else if in_range 97 102 c then Some (code c - 87)
  else if in_range 65 70 c then Some (code c - 55)
  else None.

(** [getu4] on the four digits that follow a backslash and a [u]. *)
Definition hex4 (h1 h2 h3 h4 : ascii) : option Z :=
  match hex_val h1, hex_val h2, hex_val h3, hex_val h4 with
  | Some a, Some b, Some c, Some d => Some (((a * 16 + b) * 16 + c) * 16 + d)
  | _, _, _, _ => None
  end.

Definition simple_escape (e : ascii) : option ascii :=
  let b := code e in
  if (b =? 34) || (b =? 92) || (b =? 47) || (b =? 39) then Some e
  else if b =? 98 then Some (of_code 8)
  else if b =? 102 then Some (of_code 12)
  else if b =? 110 then Some (of_code 10)
  else if b =? 114 then Some (of_code 13)
  else if b =? 116 then Some (of_code 9)
  else None.

Definition replacement (acc : list ascii) : list ascii :=
  Utf8.EncodeRune Utf8.RuneError acc.

(** [unquoteBytes] on the text between the quotes of a string literal:
    escapes are interpreted, surrogate pairs are joined, and ill-formed
    UTF-8 is replaced by U+FFFD. *)
Fixpoint unquote (s : string) (acc : list ascii) : option string :=
  match s with
  | EmptyString => Some (of_rev acc)
  | String c r =>
      if Ascii.eqb c backslash then
        match r with
        | EmptyString => None
        | String e r1 =>
            if Ascii.eqb e "u"%char then
              match r1 with
              | String h1 (String h2 (String h3 (String h4 r2))) =>
                  match hex4 h1 h2 h3 h4 with
                  | None => None
                  | Some rr =>
                      if Utf8.is_surrogate rr then
                        match r2 with
                        | String b (String u (String g1 (String g2 (String g3 (String g4 r3))))) =>
                            match
                              (if Ascii.eqb b backslash && Ascii.eqb u "u"%char
                               then hex4 g1 g2 g3 g4 else None)
                            with
                            | Some rr1 =>
                                match Utf8.DecodeSurrogates rr rr1 with
                                | Some dec => unquote r3 (Utf8.EncodeRune dec acc)
                                | None => unquote r2 (replacement acc)
                                end
                            | None => unquote r2 (replacement acc)
                            end
                        | _ => unquote r2 (replacement acc)
                        end
                      else unquote r2 (Utf8.EncodeRune rr acc)
                  end
              | _ => None
              end
            else
              match simple_escape e with
              | Some ch => unquote r1 (ch :: acc)
              | None => None
              end
        end
      else if Ascii.eqb c dquote || (code c <? 32) then None
      else if code c <? 128 then unquote r (c :: acc)
      else
        match Utf8.seq_len s, r with
        | 2%nat, String c1 r' => unquote r' (c1 :: c :: acc)
        | 3%nat, String c1 (String c2 r') => unquote r' (c2 :: c1 :: c :: acc)
        | 4%nat, String c1 (String c2 (String c3 r')) =>
            unquote r' (c3 :: c2 :: c1 :: c :: acc)
        | _, _ => unquote r (replacement acc)
        end
  end.

(** *** The scanner

    [scanner.go] is a state machine fed one byte at a time; this one also
    builds the syntax tree as it goes. *)

(** What an enclosing object is waiting for. *)
Inductive keystate : Type :=
| NoKey                      (* a key, or the end of the object *)
| KeyRead (k : string)       (* the colon after key [k] *)
| KeyColon (k : string).     (* the value of key [k] *)

(** Enclosing arrays and objects, with what was read of them (reversed). *)
Inductive frame : Type :=
| FArray (done : list json)
| FObject (done : list (string * json)) (ks : keystate).

Record number : Type := mkNumber {
  num_neg : bool;
  num_mant : Z;
  num_frac : Z;      (* digits read after the point *)
  num_eneg : bool;
  num_exp : Z
}.

Inductive numstate : Type :=
| SNeg | S0 | S1 | SDot | SDot0 | SE | SESign | SE0.

Inductive mode : Type :=
| BeginValue
| BeginValueOrEmpty
| BeginStringOrEmpty
| BeginString
| InString (raw : list ascii)
| InStringEsc (raw : list ascii)
| InStringEscU (k : nat) (raw : list ascii)
| InNumber (st : numstate) (n : number)
| InLiteral (rest : string) (v : json)
| EndValue
| EndTop (v : json).

Record scanner : Type := mkScanner { stack : list frame; smode : mode }.

Definition maxNestingDepth : Z := 10000.

Definition number_value (n : number) : json :=
  JNumber (num_neg n) (num_mant n)
    ((if num_eneg n then - num_exp n else num_exp n) - num_frac n).

(** A value [v] is complete: hand it to the enclosing frame. *)
Definition finish (v : json) (stk : list frame) : option scanner :=
  match stk with
  | [] => Some (mkScanner [] (EndTop v))
  | FArray done :: up => Some (mkScanner (FArray (v :: done) :: up) EndValue)
  | FObject done NoKey :: up =>
      match v with
      | JString k => Some (mkScanner (FObject done (KeyRead k) :: up) EndValue)
      | _ => None
      end
  | FObject done (KeyColon k) :: up =>
      Some (mkScanner (FObject ((k, v) :: done) NoKey :: up) EndValue)
  | FObject _ (KeyRead _) :: _ => None
  end.

(** [stateEndValue] and [stateEndTop]. *)
Definition end_value (s : scanner) (c : ascii) : option scanner :=
  if is_space c then Some s
  else
    match stack s with
    | [] => None
    | FArray done :: up =>
        if Ascii.eqb c ","%char then Some (mkScanner (stack s) BeginValue)
        else if Ascii.eqb c "]"%char then finish (JArray (rev done)) up
        else None
    | FObject done NoKey :: up =>
        if Ascii.eqb c ","%char then Some (mkScanner (stack s) BeginString)
        else if Ascii.eqb c "}"%char then finish (JObject (rev done)) up
        else None
    | FObject done (KeyRead k) :: up =>
        if Ascii.eqb c ":"%char
        then Some (mkScanner (FObject done (KeyColon k) :: up) BeginValue)
        else None
    | FObject _ (KeyColon _) :: _ => None
    end.

Definition push (f : frame) (stk : list frame) (m : mode) : option scanner :=
  if Z.of_nat (List.length stk) <? maxNestingDepth
  then Some (mkScanner (f :: stk) m) else None.

Definition begin_number (neg : bool) (d : Z) (st : numstate) : mode :=
  InNumber st (mkNumber neg d 0 false 0).

(** [stateBeginValue] on a byte that is not a space. *)
Definition begin_value (stk : list frame) (c : ascii) : option scanner :=
  if Ascii.eqb c "{"%char then push (FObject [] NoKey) stk BeginStringOrEmpty
  else if Ascii.eqb c "["%char then push (FArray []) stk BeginValueOrEmpty
  else if Ascii.eqb c dquote then Some (mkScanner stk (InString []))
  else if Ascii.eqb c "-"%char then Some (mkScanner stk (begin_number true 0 SNeg))
  else if Ascii.eqb c "0"%char then Some (mkScanner stk (begin_number false 0 S0))
  else if in_range 49 57 c
  then Some (mkScanner stk (begin_number false (digit_val c) S1))
  else if Ascii.eqb c "t"%char then Some (mkScanner stk (InLiteral "rue" (JBool true)))
  else if Ascii.eqb c "f"%char then Some (mkScanner stk (InLiteral "alse" (JBool false)))
  else if Ascii.eqb c "n"%char then Some (mkScanner stk (InLiteral "ull" JNull))
  else None.

Definition begin_string (stk : list frame) (c : ascii) : option scanner :=
  if Ascii.eqb c dquote then Some (mkScanner stk (InString [])) else None.

(** The number is over at [c]: complete it and read [c] after a value. *)
Definition end_number (stk : list frame) (n : number) (c : ascii) : option scanner :=
  match finish (number_value n) stk with
  | Some s => end_value s c
  | None => None
  end.

Definition add_digit (n : number) (c : ascii) : number :=
  mkNumber (num_neg n) (num_mant n * 10 + digit_val c) (num_frac n)
           (num_eneg n) (num_exp n).

Definition add_frac_digit (n : number) (c : ascii) : number :=
  mkNumber (num_neg n) (num_mant n * 10 + digit_val c) (num_frac n + 1)
           (num_eneg n) (num_exp n).

Definition add_exp_digit (n : number) (c : ascii) : number :=
  mkNumber (num_neg n) (num_mant n) (num_frac n)
           (num_eneg n) (num_exp n * 10 + digit_val c).

Definition set_exp_neg (n : number) : number :=
  mkNumber (num_neg n) (num_mant n) (num_frac n) true (num_exp n).

Definition is_e (c : ascii) : bool := Ascii.eqb c "e"%char || Ascii.eqb c "E"%char.

Definition step_number (stk : list frame) (st : numstate) (n : number) (c : ascii)
  : option scanner :=
  let stay st' n' := Some (mkScanner stk (InNumber st' n')) in
  match st with
  | SNeg =>
      if Ascii.eqb c "0"%char then stay S0 n
      else if in_range 49 57 c then stay S1 (add_digit n c)
      else None
  | S1 =>
      if is_digit c then stay S1 (add_digit n c)
      else if Ascii.eqb c "."%char then stay SDot n
      else if is_e c then stay SE n
      else end_number stk n c
  | S0 =>
      if Ascii.eqb c "."%char then stay SDot n
      else if is_e c then stay SE n
      else end_number stk n c
  | SDot => if is_digit c then stay SDot0 (add_frac_digit n c) else None
  | SDot0 =>
      if is_digit c then stay SDot0 (add_frac_digit n c)
      else if is_e c then stay SE n
      else end_number stk n c
  | SE =>
      if Ascii.eqb c "+"%char then stay SESign n
      else if Ascii.eqb c "-"%char then stay SESign (set_exp_neg n)
      else if is_digit c then stay SE0 (add_exp_digit n c)
      else None
  | SESign => if is_digit c then stay SE0 (add_exp_digit n c) else None
  | SE0 =>
      if is_digit c then stay SE0 (add_exp_digit n c)
      else end_number stk n c
  end.

(** One byte of input. *)
Definition step (s : scanner) (c : ascii) : option scanner :=
  let stk := stack s in
  match smode s with
  | BeginValue => if is_space c then Some s else begin_value stk c
  | BeginValueOrEmpty =>
      if is_space c then Some s
      else if Ascii.eqb c "]"%char then end_value (mkScanner stk EndValue) c
      else begin_value stk c
  | BeginStringOrEmpty =>
      if is_space c then Some s
      else if Ascii.eqb c "}"%char then end_value (mkScanner stk EndValue) c
      else begin_string stk c
  | BeginString => if is_space c then Some s else begin_string stk c
  | InString raw =>
      if Ascii.eqb c dquote then
        match unquote (of_rev raw) [] with
        | Some str => finish (JString str) stk
        | None => None
        end
      else if Ascii.eqb c backslash then Some (mkScanner stk (InStringEsc (c :: raw)))
      else if code c <? 32 then None
      else Some (mkScanner stk (InString (c :: raw)))
  | InStringEsc raw =>
      let b := code c in
      if (b =? 98) || (b =? 102) || (b =? 110) || (b =? 114) || (b =? 116)
         || (b =? 92) || (b =? 47) || (b =? 34)
      then Some (mkScanner stk (InString (c :: raw)))
      else if b =? 117 then Some (mkScanner stk (InStringEscU 4 (c :: raw)))
      else None
  | InStringEscU k raw =>
      match hex_val c, k with
      | Some _, S O => Some (mkScanner stk (InString (c :: raw)))
      | Some _, S k' => Some (mkScanner stk (InStringEscU k' (c :: raw)))
      | _, _ => None
      end
  | InNumber st n => step_number stk st n c
  | InLiteral rest v =>
      match rest with
      | String x rest' =>
          if Ascii.eqb c x then
            if is_empty rest' then finish v stk
            else Some (mkScanner stk (InLiteral rest' v))
          else None
      | EmptyString => None
      end
  | EndValue => end_value s c
  | EndTop _ => end_value s c
  end.

Fixpoint scan (s : scanner) (input : string) : option scanner :=
  match input with
  | EmptyString => Some s
  | String c r =>
      match step s c with
      | Some s' => scan s' r
      | None => None
      end
  end.

(** The whole input is one JSON value between optional spaces
    ([checkValid]); the end of input is read as one more space. *)
Definition parse (input : string) : option json :=
  match scan (mkScanner [] BeginValue) input with
  | Some s =>
      match step s " "%char with
      | Some (mkScanner [] (EndTop v)) => Some v
      | _ => None
      end
  | None => None
  end.


(** *** Go values

    What [Unmarshal] stores in an [interface{}]: [nil], [bool], [float64],
    [string], [[]interface{}] and [map[string]interface{}].  A map is an
    association list with one entry per key; only lookups observe it. *)

Inductive value : Type :=
| VNil
| VBool (b : bool)
| VFloat64 (f : Strconv.float64)
| VString (s : string)
| VSlice (elems : list value)
| VMap (entries : list (string * value)).

Definition gomap : Type := list (string * value).

(** [m[k]] with its presence flag. *)
Fixpoint map_get (m : gomap) (k : string) : option value :=
  match m with
  | [] => None
  | (k', v) :: r => if String.eqb k' k then Some v else map_get r k
  end.

(** [m[k] = v]. *)
Fixpoint map_set (k : string) (v : value) (m : gomap) : gomap :=
  match m with
  | [] => [(k, v)]
  | (k', v') :: r =>
      if String.eqb k' k then (k, v) :: r else (k', v') :: map_set k v r
  end.

(** [saveError]: the first error is the one reported. *)
Definition first_error (e1 e2 : option error) : option error :=
  match e1 with
  | Some _ => e1
  | None => e2
  end.

Section Containers.
Variable dec : json -> value * option error.

Fixpoint store_elems (l : list json) : list value * option error :=
  match l with
  | [] => ([], None)
  | x :: r =>
      let '(v, e1) := dec x in
      let '(vs, e2) := store_elems r in
      (v :: vs, first_error e1 e2)
  end.

Fixpoint store_members (ms : list (string * json)) (acc : gomap)
  : gomap * option error :=
  match ms with
  | [] => (acc, None)
  | (k, x) :: r =>
      let '(v, e1) := dec x in
      let '(m, e2) := store_members r (map_set k v acc) in
      (m, first_error e1 e2)
  end.
End Containers.

Definition type_error (what type : string) : error :=
  "json: cannot unmarshal " ++ what ++ " into Go value of type " ++ type.

(** [valueInterface]: decoding into an empty interface.  A number out of
    the [float64] range is stored as [nil] and saved as an error. *)
Fixpoint valueInterface (j : json) : value * option error :=
  match j with
  | JNull => (VNil, None)
  | JBool b => (VBool b, None)
  | JNumber neg m e =>
      match Strconv.ParseFloat neg m e with
      | Some f => (VFloat64 f, None)
      | None => (VNil, Some (type_error "number" "float64"))
      end
  | JString s => (VString s, None)
  | JArray l =>
      let '(vs, e) := store_elems valueInterface l in (VSlice vs, e)
  | JObject ms =>
      let '(m, e) := store_members valueInterface ms [] in (VMap m, e)
  end.

Definition kind_name (j : json) : string :=
  match j with
  | JNull => "null"
  | JBool _ => "bool"
  | JNumber _ _ _ => "number"
  | JString _ => "string"
  | JArray _ => "array"
  | JObject _ => "object"
  end.

Definition syntax_error : error :=
  "invalid character or unexpected end of JSON input".

(** [json.Unmarshal(data, &m)] for [m] of type [map[string]interface{}]
    holding [target]: the new contents of [m] and the error returned. *)
Definition Unmarshal_map (data : string) (target : gomap) : gomap * option error :=
  match parse data with
  | None => (target, Some syntax_error)
  | Some (JObject ms) => store_members valueInterface ms target
  | Some JNull => ([], None)
  | Some j => (target, Some (type_error (kind_name j) "map[string]interface {}"))
  end.

(** *** Decoding into struct fields *)

(** [foldName] for the comparison with a field name written in ASCII:
    ASCII letters are upper-cased, and the two letters outside ASCII that
    fold to ASCII ones, U+017F and U+212A, become [S] and [K]. *)
Fixpoint foldName (s : string) : string :=
  match s with
  | EmptyString => EmptyString
  | String c r =>
      if in_range 97 122 c then String (of_code (code c - 32)) (foldName r)
      else
        match r with
        | String c1 r1 =>
            if (code c =? 197) && (code c1 =? 191) then String "S"%char (foldName r1)
            else
              match r1 with
              | String c2 r2 =>
                  if (code c =? 226) && (code c1 =? 132) && (code c2 =? 170)
                  then String "K"%char (foldName r2)
                  else String c (foldName r)
              | EmptyString => String c (foldName r)
              end
        | EmptyString => String c EmptyString
        end
  end.

(** Does the object key [key] select the field tagged [name]?  The exact
    name is preferred, a name equal up to folding is accepted. *)
Definition key_matches (name key : string) : bool :=
  String.eqb key name || String.eqb (foldName key) (foldName name).

(** Storing a value in a [bool] field: [null] leaves it alone. *)
Definition store_bool (j : json) (old : bool) : bool * option error :=
  match j with
  | JBool b => (b, None)
  | JNull => (old, None)
  | _ => (old, Some (type_error (kind_name j) "bool"))
  end.

(** Storing a value in a [string] field: [null] leaves it alone. *)
Definition store_string (j : json) (old : string) : string * option error :=
  match j with
  | JString s => (s, None)
  | JNull => (old, None)
  | _ => (old, Some (type_error (kind_name j) "string"))
  end.

End Json.

(* ================================================================= *)
(** ** [strings] *)

Module Strings.

Fixpoint HasPrefix (s prefix : string) : bool :=
  match prefix, s with
  | EmptyString, _ => true
  | String p pr, String c r => Ascii.eqb p c && HasPrefix r pr
  | String _ _, EmptyString => false
  end.

(** [go s skip]: [skip] counts the bytes still to drop of the occurrence
    of [old] that was just replaced. *)
Fixpoint replace_from (old new s : string) (skip : nat) : string :=
  match s with
  | EmptyString => EmptyString
  | String c r =>
      match skip with
      | S k => replace_from old new r k
      | O =>
          if HasPrefix s old
          then new ++ replace_from old new r (String.length old - 1)
          else String c (replace_from old new r O)
      end
  end.

(** [strings.ReplaceAll(s, old, new)] for a non-empty [old]: the
    occurrences of [old] are replaced from left to right, without
    overlap.  (An empty [old] is not used by the program and is left
    alone.) *)
Definition ReplaceAll (s old new : string) : string :=
  match old with
  | EmptyString => s
  | String _ _ => replace_from old new s O
  end.

Definition Repeat (s : string) (count : nat) : string := Bytes.repeat s count.

Fixpoint Join (elems : list string) (sep : string) : string :=
  match elems with
  | [] => EmptyString
  | [x] => x
  | x :: r => x ++ sep ++ Join r sep
  end.

End Strings.

(* ================================================================= *)
(** ** [time], configuration and the outside world *)

Import Bytes.

(** A [time.Time] is a reading of the process clock in nanoseconds, a
    [time.Duration] a number of nanoseconds. *)
Definition Time : Type := Z.
Definition Duration : Type := Z.

Definition Second : Duration := 1000000000.
Definition Minute : Duration := 60 * Second.

(** [t.After(u)]. *)
Definition After (t u : Time) : bool := u <? t.

(** [t.Add(d)]. *)
Definition Add (t : Time) (d : Duration) : Time := t + d.

Definition APIKey : string := "YOUR_API_KEY".
Definition ReconnectDelay : Duration := 5 * Second.
Definition MaxRetries : Z := 5.
Definition PingInterval : Duration := 45 * Second.

(** Go functions return a value together with an error. *)
Inductive result (A : Type) : Type :=
| Ok (a : A)
| Fail (err : error).
Arguments Ok {A} a.
Arguments Fail {A} err.

(** An HTTP response: reading its body to the end gives the bytes or fails. *)
Inductive Response : Type :=
| mkResponse (body : result string).

(** [ioutil.ReadAll(resp.Body)]. *)
Definition ReadAll (resp : Response) : result string :=
  match resp with mkResponse b => b end.

(** What a listening session meets, in the order in which the program
    takes it up: a frame delivered to the reader, a receive error handed by
    the reader to the loop over the [done] channel, or a tick of the ping
    ticker taken by the [select]. *)
Inductive event : Type :=
| Frame (msg : string)
| ReadError (err : error)
| Tick.

(** The environment: every answer the outside world will give, numbered in
    the order of the requests of each kind. *)
Record Env : Type := mkEnv {
  clock : nat -> Time;                  (* readings of [time.Now()] *)
  token_endpoint : nat -> result Response;  (* answers to [http.Post] *)
  dialer : nat -> option error;         (* outcomes of [Dial], [None]: connected *)
  socket_write : nat -> option error;   (* outcomes of [WriteMessage] *)
  feed : nat -> event;                  (* events of the listening sessions *)
  log_file : option error               (* outcome of [os.Create] *)
}.

(** A websocket connection: the text messages written to it, and whether
    it was closed. *)
Record Conn : Type := mkConn {
  conn_sent : list string;
  conn_closed : bool
}.

(** [*websocket.Conn]: [None] is the nil pointer, [Some i] points to the
    [i]-th connection dialled. *)
Definition ConnPtr : Type := option nat.

(** The watcher.  Its [logger] field points to the one logger of the
    process, whose output is [w_log] below. *)
Record DotaMarketWatcher : Type := mkWatcher {
  conn : ConnPtr;
  token : string;
  tokenExpires : Time;
  retries : Z;
  lastPing : Time
}.

(** The zero value [&DotaMarketWatcher{logger: logger}]. *)
Definition new_watcher : DotaMarketWatcher := mkWatcher None EmptyString 0 0 0.

(** The state of the process and of what it talks to. *)
Record State : Type := mkState {
  d : DotaMarketWatcher;
  w_now : nat;                 (* answers consumed from [clock] *)
  w_posts : nat;               (* ... from [token_endpoint] *)
  w_dials : nat;               (* ... from [dialer] *)
  w_writes : nat;              (* ... from [socket_write] *)
  w_events : nat;              (* ... from [feed] *)
  w_conns : list Conn;         (* the connections dialled so far *)
  w_log : list string;         (* the entries written to the log file *)
  w_sleeps : list Duration     (* the calls of [time.Sleep] *)
}.

Definition initial_state : State :=
  mkState new_watcher 0 0 0 0 0 [] [] [].

Definition with_d (f : DotaMarketWatcher -> DotaMarketWatcher) (s : State) : State :=
  mkState (f (d s)) (w_now s) (w_posts s) (w_dials s) (w_writes s) (w_events s)
          (w_conns s) (w_log s) (w_sleeps s).

Definition set_conn (c : ConnPtr) (x : DotaMarketWatcher) : DotaMarketWatcher :=
  mkWatcher c (token x) (tokenExpires x) (retries x) (lastPing x).
Definition set_token (t : string) (x : DotaMarketWatcher) : DotaMarketWatcher :=
  mkWatcher (conn x) t (tokenExpires x) (retries x) (lastPing x).
Definition set_tokenExpires (t : Time) (x : DotaMarketWatcher) : DotaMarketWatcher :=
  mkWatcher (conn x) (token x) t (retries x) (lastPing x).
Definition set_retries (r : Z) (x : DotaMarketWatcher) : DotaMarketWatcher :=
  mkWatcher (conn x) (token x) (tokenExpires x) r (lastPing x).
Definition set_lastPing (t : Time) (x : DotaMarketWatcher) : DotaMarketWatcher :=
  mkWatcher (conn x) (token x) (tokenExpires x) (retries x) t.

Fixpoint update_nth {A : Type} (i : nat) (f : A -> A) (l : list A) : list A :=
  match l, i with
  | [], _ => []
  | x :: r, O => f x :: r
  | x :: r, S j => x :: update_nth j f r
  end.

(** The state after one more reading of the clock. *)
Definition clock_read (s : State) : State :=
  mkState (d s) (S (w_now s)) (w_posts s) (w_dials s) (w_writes s)
          (w_events s) (w_conns s) (w_log s) (w_sleeps s).

(** The state after one more event of the feed was taken. *)
Definition event_taken (s : State) : State :=
  mkState (d s) (w_now s) (w_posts s) (w_dials s) (w_writes s)
          (S (w_events s)) (w_conns s) (w_log s) (w_sleeps s).

(** An entry of the log ends with a newline. *)
Definition log_entry (text : string) : string :=
  if ends_with_newline text then text else text ++ newline.

(** The state after [text] was written to the log. *)
Definition logged (text : string) (s : State) : State :=
  mkState (d s) (w_now s) (w_posts s) (w_dials s) (w_writes s)
          (w_events s) (w_conns s) (w_log s ++ [log_entry text]) (w_sleeps s).

(** The state after the [i]-th connection was closed. *)
Definition closed (i : nat) (s : State) : State :=
  mkState (d s) (w_now s) (w_posts s) (w_dials s) (w_writes s) (w_events s)
          (update_nth i (fun cn => mkConn (conn_sent cn) true) (w_conns s))
          (w_log s) (w_sleeps s).

(** The state after a write on the [i]-th connection: [msg] is recorded
    when the write succeeded. *)
Definition written (i : nat) (msg : string) (err : option error) (s : State) : State :=
  mkState (d s) (w_now s) (w_posts s) (w_dials s) (S (w_writes s)) (w_events s)
          (update_nth i
             (fun cn =>
                match err with
                | None => mkConn (conn_sent cn ++ [msg]) (conn_closed cn)
                | Some _ => cn
                end)
             (w_conns s))
          (w_log s) (w_sleeps s).

(** The [i]-th connection dialled (a closed, silent one when there is none). *)
Definition conn_at (s : State) (i : nat) : Conn :=
  nth i (w_conns s) (mkConn [] true).

(** [int] arithmetic: 64 bits, two's complement. *)
Definition wrap_int (z : Z) : Z :=
  (z + 9223372036854775808) mod 18446744073709551616 - 9223372036854775808.

(** *** Outcomes and the monad of the program *)

(** A call returns, or panics (which ends the process: no panic is
    recovered in this program), or ends the process through [os.Exit], or
    is still running when the observation stops. *)
Inductive Outcome (A : Type) : Type :=
| Ret (a : A) (s : State)
| Panic (msg : string) (s : State)
| Exit (code : Z) (s : State)
| Running (s : State).
Arguments Ret {A} a s.
Arguments Panic {A} msg s.
Arguments Exit {A} code s.
Arguments Running {A} s.

Definition M (A : Type) : Type := State -> Outcome A.

Definition ret {A : Type} (a : A) : M A := fun s => Ret a s.

Definition bind {A B : Type} (m : M A) (k : A -> M B) : M B :=
  fun s =>
    match m s with
    | Ret a s' => k a s'
    | Panic msg s' => Panic msg s'
    | Exit code s' => Exit code s'
    | Running s' => Running s'
    end.

Declare Scope go_scope.
Delimit Scope go_scope with go.
Notation "x <- c1 ;; c2" := (bind c1 (fun x => c2))
  (at level 61, c1 at next level, right associativity) : go_scope.
Notation "c1 ;; c2" := (bind c1 (fun _ => c2))
  (at level 61, right associativity) : go_scope.
Local Open Scope go_scope.

Definition panic {A : Type} (msg : string) : M A := fun s => Panic msg s.

Definition os_Exit {A : Type} (code : Z) : M A := fun s => Exit code s.

Definition get_d : M DotaMarketWatcher := fun s => Ret (d s) s.

Definition modify_d (f : DotaMarketWatcher -> DotaMarketWatcher) : M unit :=
  fun s => Ret tt (with_d f s).

(** The final state of an outcome. *)
Definition final {A : Type} (o : Outcome A) : State :=
  match o with
  | Ret _ s | Panic _ s | Exit _ s | Running s => s
  end.

(** *** What a call leaves alone *)

(** [keeps R m]: the call [m] never ends the process through [os.Exit], and
    the state it ends in is related by [R] to the one it started from. *)
Definition keeps {A : Type} (R : State -> State -> Prop) (m : M A) : Prop :=
  forall s,
    match m s with
    | Exit _ _ => False
    | o => R s (final o)
    end.

(** A listening session changes neither the watcher's connection, token,
    expiry and retry counter, nor the number of connections, of token
    exchanges and of dials. *)
Definition stable (s s' : State) : Prop :=
  conn (d s') = conn (d s)
  /\ token (d s') = token (d s)
  /\ tokenExpires (d s') = tokenExpires (d s)
  /\ retries (d s') = retries (d s)
  /\ List.length (w_conns s') = List.length (w_conns s)
  /\ w_posts s' = w_posts s
  /\ w_dials s' = w_dials s
  /\ (w_writes s <= w_writes s')%nat
  /\ (w_events s <= w_events s')%nat.

(** The decoder only writes to the log. *)
Definition only_logs (s s' : State) : Prop :=
  exists entries,
    s' = mkState (d s) (w_now s) (w_posts s) (w_dials s) (w_writes s)
                 (w_events s) (w_conns s) (w_log s ++ entries) (w_sleeps s).

(** The numbers stored directly under the keys of a map are finite. *)
Definition top_finite (m : Json.gomap) : Prop :=
  forall k f, Json.map_get m k = Some (Json.VFloat64 f) -> Strconv.is_finite f = true.

(* ================================================================= *)
(** ** The answer of the token endpoint *)

(** The anonymous struct of [UpdateToken], with its JSON tags [success],
    [token] and [error]. *)
Record tokenData : Type := mkTokenData {
  Success : bool;
  Token : string;
  Error : string
}.

(** [var data struct{...}]: the zero value. *)
Definition zero_tokenData : tokenData := mkTokenData false EmptyString EmptyString.

(** One member of the answer: stored in the field its key selects, skipped
    when it selects none. *)
Definition store_field (k : string) (j : Json.json) (data : tokenData)
  : tokenData * option error :=
  if Json.key_matches "success" k then
    let '(b, e) := Json.store_bool j (Success data) in
    (mkTokenData b (Token data) (Error data), e)
  else if Json.key_matches "token" k then
    let '(t, e) := Json.store_string j (Token data) in
    (mkTokenData (Success data) t (Error data), e)
  else if Json.key_matches "error" k then
    let '(m, e) := Json.store_string j (Error data) in
    (mkTokenData (Success data) (Token data) m, e)
  else (data, None).

Fixpoint store_fields (ms : list (string * Json.json)) (data : tokenData)
  : tokenData * option error :=
  match ms with
  | [] => (data, None)
  | (k, j) :: r =>
      let '(data1, e1) := store_field k j data in
      let '(data2, e2) := store_fields r data1 in
      (data2, Json.first_error e1 e2)
  end.

(** [json.Unmarshal(body, &data)]. *)
Definition Unmarshal_tokenData (body : string) (data : tokenData)
  : tokenData * option error :=
  match Json.parse body with
  | None => (data, Some Json.syntax_error)
  | Some (Json.JObject ms) => store_fields ms data
  | Some Json.JNull => (data, None)
  | Some j => (data, Some (Json.type_error (Json.kind_name j) "struct"))
  end.

(* ================================================================= *)
(** ** The watcher *)

Section Watcher.

(** [strconv.FormatFloat(f, 'g', -1, 64)], the shortest decimal text that
    reads back as [f]: how [%v] prints a [float64] met inside an array or
    an object.  It is a parameter of the development. *)
Variable FormatFloat_g : Strconv.float64 -> string.

Variable env : Env.

(** *** Primitive operations *)

Definition time_Now : M Time :=
  fun s => Ret (clock env (w_now s)) (clock_read s).

Definition time_Sleep (dur : Duration) : M unit :=
  fun s =>
    Ret tt
        (mkState (d s) (w_now s) (w_posts s) (w_dials s) (w_writes s)
                 (w_events s) (w_conns s) (w_log s) (w_sleeps s ++ [dur])).

(** [http.Post(url, contentType, nil)]. *)
Definition http_Post (url contentType : string) : M (result Response) :=
  fun s =>
    Ret (token_endpoint env (w_posts s))
        (mkState (d s) (w_now s) (S (w_posts s)) (w_dials s) (w_writes s)
                 (w_events s) (w_conns s) (w_log s) (w_sleeps s)).

(** [websocket.DefaultDialer.Dial(url, header)]: a fresh connection or an
    error. *)
Definition Dial (url : string) (header : list (string * string))
  : M (ConnPtr * option error) :=
  fun s =>
    match dialer env (w_dials s) with
    | Some err =>
        Ret (None, Some err)
            (mkState (d s) (w_now s) (w_posts s) (S (w_dials s)) (w_writes s)
                     (w_events s) (w_conns s) (w_log s) (w_sleeps s))
    | None =>
        Ret (Some (List.length (w_conns s)), None)
            (mkState (d s) (w_now s) (w_posts s) (S (w_dials s)) (w_writes s)
                     (w_events s) (w_conns s ++ [mkConn [] false])
                     (w_log s) (w_sleeps s))
    end.

Definition nil_dereference : string :=
  "runtime error: invalid memory address or nil pointer dereference".

(** [c.WriteMessage(websocket.TextMessage, msg)]: the message is recorded
    on the connection when the write succeeds. *)
Definition WriteMessage (c : ConnPtr) (msg : string) : M (option error) :=
  fun s =>
    match c with
    | None => Panic nil_dereference s
    | Some i =>
        let err := socket_write env (w_writes s) in
        Ret err (written i msg err s)
    end.

(** [c.Close()]. *)
Definition Close (c : ConnPtr) : M unit :=
  fun s =>
    match c with
    | None => Panic nil_dereference s
    | Some i => Ret tt (closed i s)
    end.

(** The next event of the listening session. *)
Definition next_event : M event :=
  fun s => Ret (feed env (w_events s)) (event_taken s).

(** [Logger.Output]: one entry, ended by a newline (the time stamp that
    starts each entry is left out). *)
Definition logger_Output (text : string) : M unit :=
  fun s => Ret tt (logged text s).

(** [d.logger.Printf(format, args...)] on the formatted text. *)
Definition logger_Printf (formatted : string) : M unit := logger_Output formatted.

(** [d.logger.Println(text)]. *)
Definition logger_Println (text : string) : M unit :=
  logger_Output (text ++ newline).

(** [logger.Fatal(text)]: an entry, then [os.Exit(1)]. *)
Definition logger_Fatal {A : Type} (text : string) : M A :=
  logger_Output text ;; os_Exit 1.

(** *** [fmt]: the verb [%v] on the values of a decoded payload *)

Fixpoint insert_sorted (kv : string * string) (l : list (string * string))
  : list (string * string) :=
  match l with
  | [] => [kv]
  | x :: r =>
      if String.leb (fst kv) (fst x) then kv :: l else x :: insert_sorted kv r
  end.

Definition sort_by_key (l : list (string * string)) : list (string * string) :=
  fold_right insert_sorted [] l.

(** [fmt.Sprintf("%v", v)]: [<nil>], [true], the elements of a slice
    between brackets, the entries of a map in the order of their keys. *)
Fixpoint Sprint_v (v : Json.value) : string :=
  match v with
  | Json.VNil => "<nil>"
  | Json.VBool b => if b then "true" else "false"
  | Json.VFloat64 f => FormatFloat_g f
  | Json.VString s => s
  | Json.VSlice l => "[" ++ Strings.Join (List.map Sprint_v l) " " ++ "]"
  | Json.VMap m =>
      "map["
        ++ Strings.Join
             (List.map (fun kv => fst kv ++ ":" ++ snd kv)
                (sort_by_key (List.map (fun kv => (fst kv, Sprint_v (snd kv))) m)))
             " "
        ++ "]"
  end.

(** *** Token manager *)

Definition UpdateToken : M (option error) :=
  let url := "https://market.csgo.com/api/v2/get-ws-token?key=" ++ APIKey in
  r <- http_Post url "application/json" ;;
  match r with
  | Fail err =>
      logger_Printf ("Token request error: " ++ err) ;;
      ret (Some err)
  | Ok resp =>
      match ReadAll resp with
      | Fail err =>
          logger_Printf ("Response read error: " ++ err) ;;
          ret (Some err)
      | Ok body =>
          let '(data, err) :=
            Unmarshal_tokenData body zero_tokenData in
          match err with
          | Some e =>
              logger_Printf ("Token parse error: " ++ e) ;;
              ret (Some e)
          | None =>
              if Success data then
                modify_d (set_token (Token data)) ;;
                now <- time_Now ;;
                modify_d (set_tokenExpires (Add now (9 * Minute))) ;;
                logger_Println "Token updated" ;;
                ret None
              else
                logger_Printf ("Token error: " ++ Error data) ;;
                ret (Some ("token error: " ++ Error data))
          end
      end
  end.

(** *** Transport session *)

Definition feed_url : string := "wss://wsn.dota2.net/wsn/".

Definition feed_header : list (string * string) :=
  [("Origin", "https://market.csgo.com");
   ("User-Agent",
    "Mozilla/5.0 (Windows NT 10.0; Win64; x64) AppleWebKit/537.36 (KHTML, like Gecko) Chrome/91.0.4472.124 Safari/537.36")].

Definition channels : list string := ["newitems_go"].

(** The loop over the channels at the end of [Connect]. *)
Fixpoint subscribe (chans : list string) : M (option error) :=
  match chans with
  | [] => ret None
  | channel :: rest =>
      x <- get_d ;;
      err <- WriteMessage (conn x) channel ;;
      match err with
      | Some e =>
          logger_Printf ("Subscribe error: " ++ e) ;;
          ret (Some e)
      | None => subscribe rest
      end
  end.

(** The statement that opens [Connect]: the token is exchanged again
    when the clock is after its recorded expiry. *)
Definition ensure_token : M (option error) :=
  now <- time_Now ;;
  x <- get_d ;;
  if After now (tokenExpires x) then UpdateToken else ret None.

Definition Connect : M (option error) :=
  refreshed <- ensure_token ;;
  match refreshed with
  | Some err => ret (Some err)
  | None =>
      logger_Println "Connecting to WebSocket..." ;;
      r <- Dial feed_url feed_header ;;
      match r with
      | (_, Some err) =>
          logger_Printf ("Connection error: " ++ err) ;;
          ret (Some err)
      | (c, None) =>
          modify_d (set_conn c) ;;
          x <- get_d ;;
          sent <- (if negb (is_empty (token x)) then
                     err <- WriteMessage (conn x) (token x) ;;
                     match err with
                     | Some e =>
                         logger_Printf ("Token send error: " ++ e) ;;
                         ret (Some e)
                     | None => ret None
                     end
                   else ret None) ;;
          match sent with
          | Some err => ret (Some err)
          | None =>
              subscribed <- subscribe channels ;;
              match subscribed with
              | Some err => ret (Some err)
              | None =>
                  logger_Println "Connected successfully" ;;
                  ret None
              end
          end
      end
  end.

Definition Initialize : M (option error) :=
  modify_d (set_retries 0) ;;
  err <- UpdateToken ;;
  match err with
  | Some e => ret (Some e)
  | None => Connect
  end.

(** *** Payload decoder *)

(** The name of the dynamic type of a value, as a failed type assertion
    reports it. *)
Definition type_name (v : Json.value) : string :=
  match v with
  | Json.VNil => "nil"
  | Json.VBool _ => "bool"
  | Json.VFloat64 _ => "float64"
  | Json.VString _ => "string"
  | Json.VSlice _ => "[]interface {}"
  | Json.VMap _ => "map[string]interface {}"
  end.

Definition conversion_panic (v : Json.value) (wanted : string) : string :=
  "interface conversion: interface {} is " ++ type_name v ++ ", not " ++ wanted.

(** [m[k]] read as an [interface{}]: [nil] when the key is absent. *)
Definition map_index (m : Json.gomap) (k : string) : Json.value :=
  match Json.map_get m k with
  | Some v => v
  | None => Json.VNil
  end.

(** [v == s] for an interface [v] and a string [s]. *)
Definition equals_string (v : Json.value) (s : string) : bool :=
  match v with
  | Json.VString x => String.eqb x s
  | _ => false
  end.

(** [v.(string)], without the [ok] result. *)
Definition assert_string (v : Json.value) : M string :=
  match v with
  | Json.VString s => ret s
  | _ => panic (conversion_panic v "string")
  end.

(** [v.(float64)], without the [ok] result. *)
Definition assert_float64 (v : Json.value) : M Strconv.float64 :=
  match v with
  | Json.VFloat64 f => ret f
  | _ => panic (conversion_panic v "float64")
  end.

Definition getValue (data : Json.gomap) (keys : list string) : M string :=
  match keys with
  | [] => panic "runtime error: index out of range [0] with length 0"
  | key :: more =>
      let defaultValue :=
        match more with
        | k1 :: _ => k1
        | [] => EmptyString
        end in
      match Json.map_get data key with
      | None => ret defaultValue
      | Some (Json.VString v) => ret v
      | Some (Json.VFloat64 v) => ret (Strconv.FormatFloat_f v 2)
      | Some v => ret (Sprint_v v)
      end
  end.

Definition banner : string := Strings.Repeat "=" 50.

(** The loop over the stickers: one line per sticker appended to the
    buffer. *)
Fixpoint write_stickers (stickers : list Json.value) (buffer : string) : M string :=
  match stickers with
  | [] => ret buffer
  | s :: rest =>
      f <- assert_float64 s ;;
      let stickerID := Strconv.FormatFloat_f f 0 in
      write_stickers rest (buffer ++ "  - ID: " ++ stickerID ++ newline)
  end.

Definition processMessage (message : string) : M unit :=
  let '(data, err) := Json.Unmarshal_map message [] in
  match err with
  | Some _ => logger_Printf ("Non-JSON message: " ++ message)
  | None =>
      if equals_string (map_index data "type") "newitems_go" then
        payload <- assert_string (map_index data "data") ;;
        let '(itemData, err) := Json.Unmarshal_map payload [] in
        match err with
        | Some e => logger_Printf ("Data parse error: " ++ e)
        | None =>
            let buffer := newline ++ banner ++ newline in
            name <- getValue itemData ["i_market_name"] ;;
            let buffer := buffer ++ "Item: " ++ name ++ newline in
            quality <- getValue itemData ["i_quality"; "--"] ;;
            let buffer := buffer ++ "Quality: " ++ quality ++ newline in
            price <- getValue itemData ["ui_price"] ;;
            currency <- getValue itemData ["ui_currency"] ;;
            let buffer := buffer ++ "Price: " ++ price ++ " " ++ currency ++ newline in
            floatVal <- getValue itemData ["ui_float"] ;;
            let buffer :=
              if negb (String.eqb floatVal EmptyString)
                 && negb (String.eqb floatVal "<nil>")
              then buffer ++ "Float: " ++ floatVal ++ newline
              else buffer in
            buffer <-
              match map_index itemData "stickers" with
              | Json.VSlice (s :: rest) =>
                  write_stickers (s :: rest) (buffer ++ "Stickers:" ++ newline)
              | _ => ret buffer
              end ;;
            inspectURL <- getValue itemData ["inspect_url"] ;;
            let buffer :=
              if negb (String.eqb inspectURL EmptyString)
              then buffer ++ "Inspect: "
                     ++ Strings.ReplaceAll inspectURL (String backslash "/") "/"
                     ++ newline
              else buffer in
            let buffer := buffer ++ banner ++ newline in
            logger_Println buffer
        end
      else ret tt
  end.

(** The state after a ping was written on connection [c] and the time of
    the ping was recorded. *)
Definition pinged (c : nat) (s : State) : State :=
  with_d (set_lastPing (clock env (w_now s)))
         (clock_read (written c "ping" None s)).

(** *** Heartbeat and read loop *)

(** The reader goroutine and the [select] loop of [Listen], driven by the
    events of the session.  A frame is decoded by the reader; a receive
    error reaches the loop through [done] and is returned; a tick sends a
    ping.  [fuel] bounds the number of events observed. *)
Fixpoint listen_loop (fuel : nat) : M (option error) :=
  match fuel with
  | O => fun s => Running s
  | S fuel' =>
      ev <- next_event ;;
      match ev with
      | Frame msg => processMessage msg ;; listen_loop fuel'
      | ReadError err => ret (Some err)
      | Tick =>
          x <- get_d ;;
          err <- WriteMessage (conn x) "ping" ;;
          match err with
          | Some e => ret (Some e)
          | None =>
              now <- time_Now ;;
              modify_d (set_lastPing now) ;;
              listen_loop fuel'
          end
      end
  end.

(** [defer c.Close()] around [body]: the connection is closed when [body]
    returns.  A panic of the reader goroutine ends the process at once. *)
Definition defer_Close {A : Type} (c : ConnPtr) (body : M A) : M A :=
  a <- body ;;
  Close c ;;
  ret a.

Definition Listen (fuel : nat) : M (option error) :=
  x <- get_d ;;
  match conn x with
  | None => panic nil_dereference
  | Some _ => defer_Close (conn x) (listen_loop fuel)
  end.

(** The state of a session after [n] events none of which ends it: frames
    from which the decoder returns and ticks whose ping is written. *)
Fixpoint session_after (n : nat) (s : State) : option State :=
  match n with
  | O => Some s
  | S n' =>
      match feed env (w_events s) with
      | Frame msg =>
          match processMessage msg (event_taken s) with
          | Ret _ s1 => session_after n' s1
          | _ => None
          end
      | ReadError _ => None
      | Tick =>
          match conn (d s), socket_write env (w_writes s) with
          | Some c, None => session_after n' (pinged c (event_taken s))
          | _, _ => None
          end
      end
  end.

(** *** Reconnection supervisor *)

(** One turn of the [for] loop of [main]. *)
Definition main_iteration (fuel : nat) : M unit :=
  err <- Initialize ;;
  match err with
  | Some _ =>
      x <- get_d ;;
      (if MaxRetries <=? retries x
       then logger_Fatal "Max retries reached" else ret tt) ;;
      modify_d (fun x => set_retries (wrap_int (retries x + 1)) x) ;;
      x <- get_d ;;
      logger_Printf ("Reconnecting " ++ Strconv.Itoa (retries x) ++ "/"
                       ++ Strconv.Itoa MaxRetries ++ newline) ;;
      time_Sleep ReconnectDelay
  | None =>
      err <- Listen fuel ;;
      match err with
      | Some e =>
          logger_Printf ("Listen error: " ++ e) ;;
          x <- get_d ;;
          Close (conn x) ;;
          x <- get_d ;;
          (if MaxRetries <=? retries x
           then logger_Fatal "Max retries reached" else ret tt) ;;
          modify_d (fun x => set_retries (wrap_int (retries x + 1)) x) ;;
          time_Sleep ReconnectDelay
      | None => ret tt
      end
  end.

(** The [for] loop of [main], observed for a number of turns. *)
Fixpoint main_loop (turns fuel : nat) : M unit :=
  match turns with
  | O => fun s => Running s
  | S n => main_iteration fuel ;; main_loop n fuel
  end.

(** [createLogger]: the log file is created, or the error of [os.Create]
    is returned. *)
Definition createLogger : M (option error) := ret (log_file env).

(** [main]: without a log file the process ends at once ([log.Fatal] on
    the standard logger); otherwise a fresh watcher enters the loop. *)
Definition main (turns fuel : nat) : M unit :=
  err <- createLogger ;;
  match err with
  | Some _ => os_Exit 1
  | None =>
      modify_d (fun _ => new_watcher) ;;
      main_loop turns fuel
  end.

End Watcher.


(* ================================================================= *)
(** ** The item record of the specification *)

(** The normalized item and its rendering, written after the words of the
    specification; the decoder above is compared with them. *)
Module ItemSpec.
Section WithFormat.
Variable FormatFloat_g : Strconv.float64 -> string.

Record Item : Type := mkItem {
  marketName : string;
  quality : string;
  price : string;
  currency : string;
  float : option string;
  stickers : list string;
  inspectURL : option string
}.

(** Field extraction: the field is looked up by its exact key; an
    absent field gives the default; a number is printed with two
    decimal digits; any other value is printed generically. *)
Definition extract (itemData : Json.gomap) (key default : string) : string :=
  match Json.map_get itemData key with
  | None => default
  | Some (Json.VFloat64 f) => Strconv.FormatFloat_f f 2
  | Some (Json.VString s) => s
  | Some v => Sprint_v FormatFloat_g v
  end.

(** The float attribute counts only when it is not empty and not the
    text [<nil>]. *)
Definition non_trivial (s : string) : option string :=
  if String.eqb s EmptyString || String.eqb s "<nil>" then None else Some s.

Definition present (s : string) : option string :=
  if String.eqb s EmptyString then None else Some s.

(** Sticker identifiers: numbers printed as integers, in their order.
    There is no list when an element is not a number. *)
Fixpoint sticker_ids (l : list Json.value) : option (list string) :=
  match l with
  | [] => Some []
  | Json.VFloat64 f :: r =>
      option_map (cons (Strconv.FormatFloat_f f 0)) (sticker_ids r)
  | _ :: _ => None
  end.

Definition unescape_slashes (url : string) : string :=
  Strings.ReplaceAll url (String backslash "/") "/".

(** The item of a decoded payload, when it has one. *)
Definition item_of (itemData : Json.gomap) : option Item :=
  let ids :=
    match Json.map_get itemData "stickers" with
    | Some (Json.VSlice l) => sticker_ids l
    | _ => Some []
    end in
  option_map
    (fun ids =>
       mkItem (extract itemData "i_market_name" EmptyString)
              (extract itemData "i_quality" "--")
              (extract itemData "ui_price" EmptyString)
              (extract itemData "ui_currency" EmptyString)
              (non_trivial (extract itemData "ui_float" EmptyString))
              ids
              (option_map unescape_slashes
                 (present (extract itemData "inspect_url" EmptyString))))
    ids.

Definition line (label text : string) : string := label ++ text ++ newline.

Definition optional_line (label : string) (text : option string) : string :=
  match text with
  | Some t => line label t
  | None => EmptyString
  end.

Definition sticker_section (ids : list string) : string :=
  match ids with
  | [] => EmptyString
  | _ :: _ =>
      line "Stickers:" EmptyString
        ++ fold_right append EmptyString (List.map (line "  - ID: ") ids)
  end.

(** The rendered record: banner, name, quality, price and currency, the
    optional float, stickers and inspect sections, banner. *)
Definition render (it : Item) : string :=
  newline
    ++ line banner EmptyString
    ++ line "Item: " (marketName it)
    ++ line "Quality: " (quality it)
    ++ line "Price: " (price it ++ " " ++ currency it)
    ++ optional_line "Float: " (float it)
    ++ sticker_section (stickers it)
    ++ optional_line "Inspect: " (inspectURL it)
    ++ line banner EmptyString.

End WithFormat.
End ItemSpec.



(* ================================================================= *)
(** ** Sample environments and frames *)

Module Samples.

(** The shortest-float printer is not exercised by the samples. *)
Definition no_floats : Strconv.float64 -> string := fun _ => "?".

Definition token_ok : string := q "{'success':true,'token':'abc123'}".

Definition token_refused : string := q "{'success':false,'error':'bad key'}".

(** The scenario frame of the specification. *)
Definition frame_ak47 : string :=
  q "{'type':'newitems_go','data':'{\'i_market_name\':\'AK-47\',\'ui_price\':\'12.50\',\'ui_currency\':\'USD\'}'}".



Definition frame_no_data : string := q "{'type':'newitems_go'}".

Definition frame_numeric_data : string := q "{'type':'newitems_go','data':5}".

Definition frame_bad_payload : string := q "{'type':'newitems_go','data':'{oops'}".

Definition payload_text_sticker : string :=
  q "{'i_market_name':'AK-47','stickers':[4114,'x']}".

Definition frame_text_sticker : string :=
  q "{'type':'newitems_go','data':'{\'i_market_name\':\'AK-47\',\'stickers\':[4114,\'x\']}'}".

Definition frame_full : string :=
  q "{'type':'newitems_go','data':'{\'i_market_name\':\'AWP\',\'i_quality\':\'FN\',\'ui_price\':12.505,\'ui_currency\':\'RUB\',\'ui_float\':0.125,\'stickers\':[4114,55],\'inspect_url\':\'steam:\\\\/\\\\/run\\\\/730\'}'}".

(** A clock that advances by one second at each reading. *)
Definition ticking : nat -> Time := fun n => Z.of_nat n * Second.

(** A world in which everything works and the feed follows [evs], then
    reports the end of the stream. *)
Definition healthy (evs : list event) : Env :=
  mkEnv ticking (fun _ => Ok (mkResponse (Ok token_ok)))
        (fun _ => None) (fun _ => None)
        (fun n => nth n evs (ReadError "EOF")) None.

(** The token endpoint cannot be reached. *)
Definition endpoint_down : Env :=
  mkEnv ticking (fun _ => Fail "dial tcp: connection refused")
        (fun _ => None) (fun _ => None) (fun _ => ReadError "EOF") None.

(** The token endpoint refuses the key. *)
Definition key_refused : Env :=
  mkEnv ticking (fun _ => Ok (mkResponse (Ok token_refused)))
        (fun _ => None) (fun _ => None) (fun _ => ReadError "EOF") None.

(** Every session is cut as soon as it listens. *)
Definition feed_down : Env := healthy [].

(** The clock stands still at [t]. *)
Definition frozen (t : Time) : Env :=
  mkEnv (fun _ => t) (fun _ => Ok (mkResponse (Ok token_ok)))
        (fun _ => None) (fun _ => None) (fun _ => ReadError "EOF") None.

(** Writes succeed until the [k]-th one (counted from [0]), which fails. *)
Definition write_fails_at (k : nat) (evs : list event) : Env :=
  mkEnv ticking (fun _ => Ok (mkResponse (Ok token_ok)))
        (fun _ => None)
        (fun n => if Nat.eqb n k then Some "write: broken pipe" else None)
        (fun n => nth n evs (ReadError "EOF")) None.

Definition dial_fails : Env :=
  mkEnv ticking (fun _ => Ok (mkResponse (Ok token_ok)))
        (fun _ => Some "dial: bad handshake") (fun _ => None)
        (fun _ => ReadError "EOF") None.

(** A watcher holding a token that expires at [expires]. *)
Definition holding (tok : string) (expires : Time) : State :=
  mkState (mkWatcher None tok expires 0 0) 0 0 0 0 0 [] [] [].

(** A line that is not JSON arrives first. *)
Definition noisy : Env := healthy [Frame "pong"; Frame frame_ak47].

(** An item, a ping that goes through, and a ping that fails: the token
    and the channel are writes [0] and [1], the pings writes [2] and [3]. *)
Definition broken_pipe : Env :=
  write_fails_at 3 [Frame frame_ak47; Tick; Tick; Tick].

(** The state in which a session starts to listen. *)
Definition connected (env : Env) : State := final (Initialize env initial_state).

End Samples.

(* ================================================================= *)
(** ** Notions used to describe whole calls *)

(** The state [s] with the log entries of [s0] appended. *)
Definition relog (s s0 : State) : State :=
  mkState (d s) (w_now s) (w_posts s) (w_dials s) (w_writes s) (w_events s)
          (w_conns s) (w_log s ++ w_log s0) (w_sleeps s).

(** An outcome observed from the initial state, replayed on [s]. *)
Definition replay {A : Type} (s : State) (o : Outcome A) : Outcome A :=
  match o with
  | Ret a s0 => Ret a (relog s s0)
  | Panic msg s0 => Panic msg (relog s s0)
  | Exit code s0 => Exit code (relog s s0)
  | Running s0 => Running (relog s s0)
  end.

(** A call whose effect is the same in every state: it only appends to the
    log, and what it appends and returns does not depend on the state. *)
Definition stateless {A : Type} (m : M A) : Prop :=
  forall s, m s = replay s (m initial_state).

(** The log entries that the decoder writes for a frame. *)
Definition entries (fg : Strconv.float64 -> string) (message : string) : list string :=
  w_log (final (processMessage fg message initial_state)).

(** The frames among the [n] events of the feed that start at position [i],
    in the order of their arrival. *)
Fixpoint frames (env : Env) (i n : nat) : list string :=
  match n with
  | O => []
  | S n' =>
      match feed env i with
      | Frame msg => msg :: frames env (S i) n'
      | _ => frames env (S i) n'
      end
  end.

(** The state after a call of [time.Sleep]. *)
Definition slept (dur : Duration) (s : State) : State :=
  mkState (d s) (w_now s) (w_posts s) (w_dials s) (w_writes s) (w_events s)
          (w_conns s) (w_log s) (w_sleeps s ++ [dur]).

(** What the token manager and the sessions leave alone: they never sleep,
    and the counters of clock readings and token requests only grow. *)
Definition awake (s s' : State) : Prop :=
  w_sleeps s' = w_sleeps s
  /\ (w_now s <= w_now s')%nat
  /\ (w_posts s <= w_posts s')%nat.

(** The connections of [s] are those of [s'], except that connection [c]
    was sent [k] more pings. *)
Definition pinged_times (c k : nat) (s s' : State) : Prop :=
  w_conns s'
  = update_nth c
      (fun cn => mkConn (conn_sent cn ++ List.repeat "ping" k) (conn_closed cn))
      (w_conns s).

(** The texts that open the entry of a failure in the log. *)
Definition failure_prefixes : list string :=
  ["Token request error: "; "Response read error: "; "Token parse error: ";
   "Connection error: "; "Token send error: "; "Subscribe error: "].

(** The entry reports the error: it is the error after one of the texts
    above, or the refusal of the token endpoint that the error wraps. *)
Definition reports (entry : string) (e : error) : Prop :=
  (exists p, In p failure_prefixes /\ entry = log_entry (p ++ e))
  \/ (exists msg, e = ("token error: " ++ msg)%string
                   /\ entry = log_entry ("Token error: " ++ msg)).

(** How a call that returns an error or [nil] shows in the last entry of
    the log. *)
Definition told (success : string) (r : option error) (s : State) : Prop :=
  match r with
  | None => last (w_log s) EmptyString = (success ++ newline)%string
  | Some e => reports (last (w_log s) EmptyString) e
  end.

Module MoreSamples.

(** The endpoint grants access without naming a token. *)
Definition token_missing : string := q "{'success':true}".

(** The first write of every connection fails. *)
Definition first_write_fails : Env := Samples.write_fails_at 0 [].

(** A world in which the endpoint answers [body] and everything else
    works, with a clock that advances by one second at each reading. *)
Definition answering (body : string) (evs : list event) : Env :=
  mkEnv Samples.ticking (fun _ => Ok (mkResponse (Ok body)))
        (fun _ => None) (fun _ => None)
        (fun n => nth n evs (ReadError "EOF")) None.

(** The log file cannot be created. *)
Definition no_log_file : Env :=
  mkEnv Samples.ticking (fun _ => Ok (mkResponse (Ok Samples.token_ok)))
        (fun _ => None) (fun _ => None) (fun _ => ReadError "EOF")
        (Some "open logs: permission denied").

(** A watcher whose token expired long ago. *)
Definition expired : State :=
  mkState (mkWatcher None "old" (-5) 0 0) 0 0 0 0 0 [] [] [].

(** A payload whose float is a number. *)
Definition frame_float : string :=
  q "{'type':'newitems_go','data':'{\'i_market_name\':\'AWP\',\'ui_float\':0.125}'}".

Definition payload_float : string := q "{'i_market_name':'AWP','ui_float':0.125}".

(** A session with two items around a line that is not JSON and a ping. *)
Definition busy : Env :=
  Samples.healthy [Frame Samples.frame_ak47; Tick; Frame "pong";
                   Frame Samples.frame_full].

End MoreSamples.


(* ================================================================= *)
(** * Properties *)

(** ** Lists and strings *)

Lemma update_nth_length {A : Type} (i : nat) (f : A -> A) (l : list A) :
  List.length (update_nth i f l) = List.length l.
Proof.
  revert i; induction l as [|x r IH]; intros [|j]; simpl; auto.
Qed.

Lemma update_nth_last {A : Type} (f : A -> A) (l : list A) (x : A) :
  update_nth (List.length l) f (l ++ [x]) = (l ++ [f x])%list.
Proof.
  induction l as [|y r IH]; simpl; [reflexivity | now rewrite IH].
Qed.

Lemma nth_update_nth {A : Type} (i : nat) (f : A -> A) (l : list A) (dflt : A) :
  (i < List.length l)%nat ->
  nth i (update_nth i f l) dflt = f (nth i l dflt).
Proof.
  revert i; induction l as [|x r IH]; intros [|j] Hlt; simpl in *;
    try lia; [reflexivity | apply IH; lia].
Qed.

Lemma nth_app_last {A : Type} (l : list A) (x dflt : A) :
  nth (List.length l) (l ++ [x])%list dflt = x.
Proof.
  induction l as [|y r IH]; simpl; auto.
Qed.

Lemma append_assoc (a b c : string) : (a ++ b) ++ c = a ++ (b ++ c).
Proof.
  induction a as [|x a IH]; simpl; [reflexivity | now rewrite IH].
Qed.

Lemma append_empty_r (a : string) : a ++ EmptyString = a.
Proof.
  induction a as [|x a IH]; simpl; [reflexivity | now rewrite IH].
Qed.

(** ** Token manager *)

Section TokenManager.
Variable env : Env.

(** C5.  When the body of the answer of the token endpoint decodes to a
    success carrying the token [T], [UpdateToken] returns no error, stores
    [T] as the token of the watcher, and records as expiry the time read
    at that moment plus nine minutes. *)
Theorem C5_token_stored_with_nine_minute_expiry (s : State) (body T E : string) :
  token_endpoint env (w_posts s) = Ok (mkResponse (Ok body)) ->
  Unmarshal_tokenData body zero_tokenData = (mkTokenData true T E, None) ->
  exists s',
    UpdateToken env s = Ret None s'
    /\ token (d s') = T
    /\ tokenExpires (d s') = Add (clock env (w_now s)) (9 * Minute)
    /\ w_log s' = (w_log s ++ [("Token updated" ++ newline)%string])%list.
Proof.
  intros Hpost Hdec.
  unfold UpdateToken, bind, http_Post. rewrite Hpost. cbn [ReadAll].
  rewrite Hdec. cbn [Success Token].
  eexists. repeat split; reflexivity.
Qed.

(** C6.  When the body of the answer decodes to a failure with the message
    [E], [UpdateToken] returns an error that carries [E], and the watcher
    (its token and its expiry among the rest) is left as it was. *)
Theorem C6_refusal_reported_and_nothing_stored (s : State) (body T E : string) :
  token_endpoint env (w_posts s) = Ok (mkResponse (Ok body)) ->
  Unmarshal_tokenData body zero_tokenData = (mkTokenData false T E, None) ->
  exists s',
    UpdateToken env s = Ret (Some ("token error: " ++ E)) s'
    /\ token (d s') = token (d s)
    /\ tokenExpires (d s') = tokenExpires (d s)
    /\ d s' = d s.
Proof.
  intros Hpost Hdec.
  unfold UpdateToken, bind, http_Post. rewrite Hpost. cbn [ReadAll].
  rewrite Hdec. cbn [Success Error].
  eexists. repeat split; reflexivity.
Qed.

End TokenManager.

(** The scenario of the specification for C5: the endpoint answers with the
    token [abc123]. *)
Lemma C5_witness_abc123 :
  exists s',
    UpdateToken (Samples.healthy []) initial_state = Ret None s'
    /\ token (d s') = "abc123"
    /\ tokenExpires (d s') = Add (clock (Samples.healthy []) 0) (9 * Minute)
    /\ w_log s' = ["Token updated" ++ newline].
Proof.
  apply (C5_token_stored_with_nine_minute_expiry (Samples.healthy []) initial_state
           Samples.token_ok "abc123" EmptyString).
  - reflexivity.
  - vm_compute. reflexivity.
Defined.

(** The scenario of the specification for C6: the endpoint refuses the key. *)
Lemma C6_witness_bad_key :
  exists s',
    UpdateToken Samples.key_refused (Samples.holding "old" 7)
      = Ret (Some "token error: bad key") s'
    /\ token (d s') = "old"
    /\ tokenExpires (d s') = 7
    /\ d s' = d (Samples.holding "old" 7).
Proof.
  apply (C6_refusal_reported_and_nothing_stored Samples.key_refused
           (Samples.holding "old" 7) Samples.token_refused EmptyString "bad key").
  - reflexivity.
  - vm_compute. reflexivity.
Defined.

(** ** Transport session *)

Section Transport.
Variable env : Env.

Lemma UpdateToken_returns (s : State) :
  exists r s',
    UpdateToken env s = Ret r s'
    /\ w_posts s' = S (w_posts s) /\ w_dials s' = w_dials s
    /\ w_writes s' = w_writes s /\ w_conns s' = w_conns s
    /\ retries (d s') = retries (d s).
Proof.
  unfold UpdateToken, bind, http_Post.
  destruct (token_endpoint env (w_posts s)) as [[[body|err]]|err]; cbn [ReadAll].
  - destruct (Unmarshal_tokenData body zero_tokenData) as [data [e|]].
    + do 2 eexists. split; [reflexivity|]. cbn. auto.
    + destruct (Success data); do 2 eexists; (split; [reflexivity|]); cbn; auto.
  - do 2 eexists. split; [reflexivity|]. cbn. auto.
  - do 2 eexists. split; [reflexivity|]. cbn. auto.
Qed.

Lemma Connect_token_error (s s1 : State) (e : error) :
  ensure_token env s = Ret (Some e) s1 -> Connect env s = Ret (Some e) s1.
Proof.
  intros H. unfold Connect, bind. rewrite H. reflexivity.
Qed.

(** What [Connect] does once the token check has passed in state [s1]:
    after a failed dial nothing is written; after a successful one the
    greeting (the token when there is one, then the channels) is written
    in order up to the first write that fails. *)
Lemma Connect_after_token (s s1 : State) :
  ensure_token env s = Ret None s1 ->
  match dialer env (w_dials s1) with
  | Some e =>
      exists s2, Connect env s = Ret (Some e) s2
                 /\ w_conns s2 = w_conns s1 /\ w_writes s2 = w_writes s1
                 /\ w_posts s2 = w_posts s1 /\ w_dials s2 = S (w_dials s1)
                 /\ retries (d s2) = retries (d s1)
  | None =>
      let c := List.length (w_conns s1) in
      let tok := token (d s1) in
      let greeting := if is_empty tok then channels else tok :: channels in
      exists r s2 sent,
        Connect env s = Ret r s2
        /\ w_conns s2 = (w_conns s1 ++ [mkConn sent false])%list
        /\ w_posts s2 = w_posts s1 /\ w_dials s2 = S (w_dials s1)
        /\ retries (d s2) = retries (d s1)
        /\ conn (d s2) = Some c /\ token (d s2) = tok
        /\ match r with
           | None =>
               sent = greeting
               /\ w_writes s2 = (w_writes s1 + List.length greeting)%nat
               /\ forall i, (i < List.length greeting)%nat ->
                            socket_write env (w_writes s1 + i) = None
           | Some e =>
               exists k,
                 (k < List.length greeting)%nat
                 /\ sent = firstn k greeting
                 /\ w_writes s2 = S (w_writes s1 + k)
                 /\ socket_write env (w_writes s1 + k) = Some e
                 /\ forall i, (i < k)%nat ->
                              socket_write env (w_writes s1 + i) = None
           end
  end.
Proof.
  intros H. unfold Connect, bind. rewrite H.
  unfold logger_Println, logger_Output, Dial. cbn -[ends_with_newline append].
  destruct (dialer env (w_dials s1)) as [e|].
  { eexists. split; [reflexivity|]. cbn. auto. }
  cbn -[ends_with_newline append].
  destruct (token (d s1)) as [|c0 tok] eqn:Htok;
    unfold WriteMessage, written; cbn -[ends_with_newline append];
    rewrite update_nth_last;
    destruct (socket_write env (w_writes s1)) as [e|] eqn:Hw1;
    cbn -[ends_with_newline append].
  - do 3 eexists. split; [reflexivity|]. cbn -[ends_with_newline append].
    repeat split; auto. exists 0%nat. rewrite Nat.add_0_r.
    cbn. repeat split; auto; intros; lia.
  - do 3 eexists. split; [reflexivity|]. cbn -[ends_with_newline append].
    repeat split; auto; try lia.
    intros i Hi. assert (i = 0)%nat by (cbn in Hi; lia). subst i.
    rewrite Nat.add_0_r. exact Hw1.
  - do 3 eexists. split; [reflexivity|]. cbn -[ends_with_newline append].
    repeat split; auto. exists 0%nat. rewrite Nat.add_0_r.
    cbn. repeat split; auto; intros; lia.
  - rewrite update_nth_last.
    destruct (socket_write env (S (w_writes s1))) as [e|] eqn:Hw2;
      cbn -[ends_with_newline append].
    + do 3 eexists. split; [reflexivity|]. cbn -[ends_with_newline append].
      repeat split; auto. exists 1%nat.
      replace (w_writes s1 + 1)%nat with (S (w_writes s1)) by lia.
      cbn. repeat split; auto; try lia.
      intros i Hi. assert (i = 0)%nat by lia. subst i.
      rewrite Nat.add_0_r. exact Hw1.
    + do 3 eexists. split; [reflexivity|]. cbn -[ends_with_newline append].
      repeat split; auto; try (cbn; lia).
      intros i Hi. cbn in Hi.
      assert (i = 0 \/ i = 1)%nat as [->| ->] by lia.
      * rewrite Nat.add_0_r. exact Hw1.
      * replace (w_writes s1 + 1)%nat with (S (w_writes s1)) by lia. exact Hw2.
Qed.

Lemma Connect_counts_after_token (s s1 : State) :
  ensure_token env s = Ret None s1 ->
  w_posts (final (Connect env s)) = w_posts s1
  /\ w_dials (final (Connect env s)) = S (w_dials s1).
Proof.
  intros H. pose proof (Connect_after_token s s1 H) as HC.
  destruct (dialer env (w_dials s1)).
  - destruct HC as (s2 & -> & _ & _ & Hp & Hd & _). cbn. auto.
  - destruct HC as (r & s2 & sent & -> & _ & Hp & Hd & _). cbn. auto.
Qed.

(** C2 (amended).  The token is refreshed exactly when the clock reads
    strictly after the recorded expiry.  When it does, [Connect] exchanges
    the token first, gives up without dialling if the exchange fails, and
    dials after it otherwise; when the clock reads the expiry or an
    earlier time, [Connect] dials with the token it holds, without any
    exchange. *)
Theorem C2_token_refreshed_only_after_expiry (s : State) :
  let now := clock env (w_now s) in
  let o := Connect env s in
  if tokenExpires (d s) <? now then
    ensure_token env s = UpdateToken env (clock_read s)
    /\ match UpdateToken env (clock_read s) with
       | Ret None s1 =>
           w_posts (final o) = S (w_posts s) /\ w_dials (final o) = S (w_dials s)
       | Ret (Some e) s1 =>
           o = Ret (Some e) s1
           /\ w_posts s1 = S (w_posts s) /\ w_dials s1 = w_dials s
       | _ => False
       end
  else
    ensure_token env s = Ret None (clock_read s)
    /\ w_posts (final o) = w_posts s
    /\ w_dials (final o) = S (w_dials s).
Proof.
  cbv zeta.
  assert (Hens : ensure_token env s =
                 if tokenExpires (d s) <? clock env (w_now s)
                 then UpdateToken env (clock_read s)
                 else Ret None (clock_read s)).
  { unfold ensure_token, bind, time_Now, get_d, After. cbn.
    destruct (tokenExpires (d s) <? clock env (w_now s)); reflexivity. }
  destruct (tokenExpires (d s) <? clock env (w_now s)).
  - split; [exact Hens|].
    destruct (UpdateToken_returns (clock_read s))
      as (r & s1 & Hu & Hp & Hd & _).
    rewrite Hu in Hens |- *. cbn in Hp, Hd.
    destruct r as [e|].
    + split; [now apply Connect_token_error|]. auto.
    + destruct (Connect_counts_after_token s s1 Hens) as [-> ->]. auto.
  - split; [exact Hens|].
    destruct (Connect_counts_after_token s _ Hens) as [-> ->]. auto.
Qed.

(** C7.  Once the token check has passed with a non-empty token: a failed
    dial ends [Connect] with that error and nothing is written; after a
    successful dial the token is the first message written to the new
    connection, followed by one message per channel, the only channel
    being [newitems_go]; a failed write ends [Connect] with that error and
    nothing further is written. *)
Theorem C7_token_then_channels_or_abort (s s1 : State) :
  ensure_token env s = Ret None s1 ->
  is_empty (token (d s1)) = false ->
  let c := List.length (w_conns s1) in
  let tok := token (d s1) in
  match dialer env (w_dials s1) with
  | Some e =>
      exists s2, Connect env s = Ret (Some e) s2
                 /\ w_conns s2 = w_conns s1 /\ w_writes s2 = w_writes s1
  | None =>
      match socket_write env (w_writes s1), socket_write env (S (w_writes s1)) with
      | Some e, _ =>
          exists s2, Connect env s = Ret (Some e) s2
                     /\ conn_sent (conn_at s2 c) = []
                     /\ w_writes s2 = S (w_writes s1)
      | None, Some e =>
          exists s2, Connect env s = Ret (Some e) s2
                     /\ conn_sent (conn_at s2 c) = [tok]
                     /\ w_writes s2 = S (S (w_writes s1))
      | None, None =>
          exists s2, Connect env s = Ret None s2
                     /\ conn (d s2) = Some c
                     /\ conn_sent (conn_at s2 c) = tok :: channels
                     /\ channels = ["newitems_go"]
                     /\ w_writes s2 = S (S (w_writes s1))
      end
  end.
Proof.
  intros H Htok. cbv zeta.
  pose proof (Connect_after_token s s1 H) as HC.
  destruct (dialer env (w_dials s1)) as [e|].
  { destruct HC as (s2 & Hc & Hcs & Hw & _). eauto. }
  cbv zeta in HC. rewrite Htok in HC.
  destruct HC as (r & s2 & sent & Hc & Hcs & _ & _ & _ & Hcn & _ & Hr).
  assert (Hsent : conn_sent (conn_at s2 (List.length (w_conns s1))) = sent).
  { unfold conn_at. rewrite Hcs, nth_app_last. reflexivity. }
  destruct r as [e|].
  - destruct Hr as (k & Hk & Hs & Hw & Hfail & Hok). cbn in Hk.
    assert (k = 0 \/ k = 1)%nat as [->| ->] by lia.
    + rewrite Nat.add_0_r in Hfail, Hw. rewrite Hfail.
      exists s2. subst sent. cbn. rewrite Hsent. auto.
    + specialize (Hok 0%nat ltac:(lia)). rewrite Nat.add_0_r in Hok.
      replace (w_writes s1 + 1)%nat with (S (w_writes s1)) in * by lia.
      rewrite Hok, Hfail.
      exists s2. subst sent. cbn. rewrite Hsent. auto.
  - destruct Hr as (Hs & Hw & Hok).
    pose proof (Hok 0%nat ltac:(cbn; lia)) as H0.
    pose proof (Hok 1%nat ltac:(cbn; lia)) as H1.
    rewrite Nat.add_0_r in H0.
    replace (w_writes s1 + 1)%nat with (S (w_writes s1)) in * by lia.
    rewrite H0, H1.
    exists s2. subst sent. cbn in Hw. rewrite Hsent.
    repeat split; auto. lia.
Qed.

End Transport.

(** C2, as stated, fails when the clock reads exactly the expiry: the token
    held expires at [100], the clock reads [100], and [Connect] dials and
    sends that token without any exchange. *)
Lemma C2_counterexample_clock_at_expiry :
  let s := Samples.holding "abc" 100 in
  let o := Connect (Samples.frozen 100) s in
  tokenExpires (d s) <= clock (Samples.frozen 100) (w_now s)
  /\ w_posts (final o) = w_posts s
  /\ w_dials (final o) = S (w_dials s)
  /\ conn_sent (conn_at (final o) 0) = ["abc"; "newitems_go"].
Proof.
  cbv zeta. split; [cbn; lia|]. vm_compute. auto.
Qed.

(** A session opened with a token that is still valid. *)
Lemma C7_witness_handshake :
  exists s2,
    Connect (Samples.healthy []) (Samples.holding "abc" (10 * Minute)) = Ret None s2
    /\ conn (d s2) = Some 0%nat
    /\ conn_sent (conn_at s2 0) = ["abc"; "newitems_go"]
    /\ channels = ["newitems_go"]
    /\ w_writes s2 = 2%nat.
Proof.
  exact (C7_token_then_channels_or_abort (Samples.healthy [])
           (Samples.holding "abc" (10 * Minute))
           (clock_read (Samples.holding "abc" (10 * Minute)))
           eq_refl eq_refl).
Defined.

(** ** Numbers of a decoded payload *)

Lemma ParseFloat_finite (neg : bool) (m e : Z) (f : Strconv.float64) :
  Strconv.ParseFloat neg m e = Some f -> Strconv.is_finite f = true.
Proof.
  unfold Strconv.ParseFloat.
  destruct (Strconv.of_decimal neg m e); intros H; inversion H; reflexivity.
Qed.

Lemma valueInterface_finite (j : Json.json) (f : Strconv.float64) :
  fst (Json.valueInterface j) = Json.VFloat64 f -> Strconv.is_finite f = true.
Proof.
  destruct j as [| |neg m e| |l|ms]; cbn; try discriminate.
  - destruct (Strconv.ParseFloat neg m e) eqn:H; cbn; [|discriminate].
    intros [= <-]. exact (ParseFloat_finite _ _ _ _ H).
  - destruct (Json.store_elems Json.valueInterface l); discriminate.
  - destruct (Json.store_members Json.valueInterface ms []); discriminate.
Qed.

Lemma map_get_map_set (m : Json.gomap) (k k' : string) (v : Json.value) :
  Json.map_get (Json.map_set k v m) k'
  = if String.eqb k k' then Some v else Json.map_get m k'.
Proof.
  induction m as [|[k0 v0] r IH]; cbn.
  - reflexivity.
  - destruct (String.eqb k0 k) eqn:E0; cbn.
    + apply String.eqb_eq in E0. subst k0.
      destruct (String.eqb k k'); reflexivity.
    + rewrite IH. destruct (String.eqb k0 k') eqn:E1; [|reflexivity].
      apply String.eqb_eq in E1. subst k0.
      rewrite String.eqb_sym in E0. now rewrite E0.
Qed.

Lemma store_members_top_finite (ms : list (string * Json.json)) :
  forall acc, top_finite acc ->
              top_finite (fst (Json.store_members Json.valueInterface ms acc)).
Proof.
  induction ms as [|[k x] r IH]; intros acc Hacc; cbn.
  - exact Hacc.
  - destruct (Json.valueInterface x) as [v e1] eqn:Hv.
    specialize (IH (Json.map_set k v acc)).
    destruct (Json.store_members Json.valueInterface r (Json.map_set k v acc))
      as [m e2]. cbn in *.
    apply IH. intros k' f Hget. rewrite map_get_map_set in Hget.
    destruct (String.eqb k k').
    + injection Hget as ->. apply (valueInterface_finite x). now rewrite Hv.
    + exact (Hacc _ _ Hget).
Qed.

Lemma Unmarshal_map_top_finite (payload : string) (m : Json.gomap) (e : option error) :
  Json.Unmarshal_map payload [] = (m, e) -> top_finite m.
Proof.
  unfold Json.Unmarshal_map.
  assert (Hnil : top_finite []) by (intros k f H; discriminate).
  destruct (Json.parse payload) as [[| | | | |ms]|];
    try (intros [= <- <-]; exact Hnil).
  intros H. pose proof (store_members_top_finite ms [] Hnil) as Hfin.
  now rewrite H in Hfin.
Qed.

Lemma digit_char_is_digit (z : Z) :
  0 <= z < 10 -> is_digit (Strconv.digit_char z) = true.
Proof.
  intros H.
  assert (z = 0 \/ z = 1 \/ z = 2 \/ z = 3 \/ z = 4 \/ z = 5 \/ z = 6 \/ z = 7
          \/ z = 8 \/ z = 9) as Hz by lia.
  repeat (destruct Hz as [->|Hz]; [reflexivity|]). subst z. reflexivity.
Qed.

(** [%.2f] prints a finite number with exactly two decimal digits after the
    point. *)
Lemma FormatFloat_f_two_decimals (f : Strconv.float64) :
  Strconv.is_finite f = true ->
  exists (whole : string) (d1 d2 : ascii),
    Strconv.FormatFloat_f f 2
    = whole ++ String "."%char (String d1 (String d2 EmptyString))
    /\ is_digit d1 = true /\ is_digit d2 = true.
Proof.
  assert (Hfmt : forall neg n,
             exists whole d1 d2,
               Strconv.fmtF neg n 2
               = whole ++ String "."%char (String d1 (String d2 EmptyString))
               /\ is_digit d1 = true /\ is_digit d2 = true).
  { intros neg n.
    exists ((if neg then "-" else EmptyString) ++ Strconv.utoa (n / 10 ^ Z.of_nat 2)),
      (Strconv.digit_char ((n / 10) mod 10)), (Strconv.digit_char (n mod 10)).
    split; [|split].
    - unfold Strconv.fmtF. rewrite append_assoc. reflexivity.
    - apply digit_char_is_digit, Z.mod_pos_bound. lia.
    - apply digit_char_is_digit, Z.mod_pos_bound. lia. }
  destruct f; cbn; try discriminate; intros _; apply Hfmt.
Qed.

(** ** Payload decoder *)




Section Decoder.
Variable fg : Strconv.float64 -> string.

Lemma getValue_extract (data : Json.gomap) (key : string) (more : list string) (s : State) :
  getValue fg data (key :: more) s
  = Ret (ItemSpec.extract fg data key
           (match more with k1 :: _ => k1 | [] => EmptyString end)) s.
Proof.
  unfold getValue, ItemSpec.extract.
  destruct (Json.map_get data key) as [[]|]; reflexivity.
Qed.

Lemma write_stickers_ids (l : list Json.value) :
  forall (ids : list string) (buffer : string) (s : State),
    ItemSpec.sticker_ids l = Some ids ->
    write_stickers l buffer s
    = Ret (buffer ++ fold_right append EmptyString
                       (List.map (ItemSpec.line "  - ID: ") ids)) s.
Proof.
  induction l as [|x r IH]; intros ids buffer s H; cbn in H.
  - injection H as <-. cbn. now rewrite append_empty_r.
  - destruct x; try discriminate.
    destruct (ItemSpec.sticker_ids r) as [ids'|]; [|discriminate].
    injection H as <-.
    cbn [write_stickers assert_float64 bind ret].
    rewrite (IH ids' _ s eq_refl).
    cbn [List.map fold_right]. unfold ItemSpec.line at 2.
    now rewrite !append_assoc.
Qed.

(** The loop over the stickers panics at the first element that is not a
    number, whatever follows it. *)
Lemma write_stickers_panics (l : list Json.value) :
  forall (buffer : string) (s : State),
    ItemSpec.sticker_ids l = None ->
    exists x, In x l /\ (forall f, x <> Json.VFloat64 f)
              /\ exists s', write_stickers l buffer s
                            = Panic (conversion_panic x "float64") s'.
Proof.
  induction l as [|x r IH]; intros buffer s H; cbn in H; [discriminate|].
  destruct x as [| |f| | |];
    try (eexists; split; [left; reflexivity|];
         split; [discriminate|]; eexists; reflexivity).
  destruct (ItemSpec.sticker_ids r) as [ids|] eqn:Hr; [discriminate|].
  cbn [write_stickers assert_float64 bind ret].
  destruct (IH (buffer ++ "  - ID: " ++ Strconv.FormatFloat_f f 0 ++ newline) s eq_refl)
    as (x & Hin & Hx & s' & Hp).
  exists x. split; [right; exact Hin|]. split; [exact Hx|]. eauto.
Qed.

Lemma sticker_ids_none (l : list Json.value) (x : Json.value) :
  In x l -> (forall f, x <> Json.VFloat64 f) -> ItemSpec.sticker_ids l = None.
Proof.
  induction l as [|y r IH]; intros Hin Hx; [contradiction|].
  destruct Hin as [->|Hin].
  - destruct x; try reflexivity. now contradiction (Hx f).
  - cbn. destruct y; try reflexivity. now rewrite (IH Hin Hx).
Qed.

(** A relevant frame whose payload parses and has an item: the record of
    the specification is the one entry written to the log. *)
Lemma processMessage_relevant (message payload : string) (data itemData : Json.gomap)
      (s : State) (item : ItemSpec.Item) :
  Json.Unmarshal_map message [] = (data, None) ->
  equals_string (map_index data "type") "newitems_go" = true ->
  map_index data "data" = Json.VString payload ->
  Json.Unmarshal_map payload [] = (itemData, None) ->
  ItemSpec.item_of fg itemData = Some item ->
  processMessage fg message s
  = Ret tt (logged (ItemSpec.render item ++ newline) s).
Proof.
  intros Hm Ht Hd Hp Hi.
  unfold processMessage. rewrite Hm, Ht. unfold bind at 1.
  rewrite Hd. cbn [assert_string ret]. rewrite Hp.
  unfold bind. rewrite !getValue_extract.
  unfold ItemSpec.item_of in Hi.
  set (B := if negb (ItemSpec.extract fg itemData "ui_float" EmptyString =? EmptyString)%string
                 && negb (ItemSpec.extract fg itemData "ui_float" EmptyString =? "<nil>")%string
            then _ else _).
  assert (Hst : exists ids,
             match Json.map_get itemData "stickers" with
             | Some (Json.VSlice l) => ItemSpec.sticker_ids l
             | _ => Some []
             end = Some ids
             /\ match map_index itemData "stickers" with
                | Json.VSlice (x :: rest) =>
                    write_stickers (x :: rest) (B ++ "Stickers:" ++ newline)
                | _ => ret B
                end s = Ret (B ++ ItemSpec.sticker_section ids) s).
  { unfold map_index.
    destruct (Json.map_get itemData "stickers") as [[| | | |l|]|];
      try (exists []; split; [reflexivity|]; cbn; now rewrite append_empty_r).
    destruct (ItemSpec.sticker_ids l) as [ids|] eqn:Hids; [|discriminate].
    exists ids. split; [reflexivity|].
    destruct l as [|x rest].
    - cbn in Hids. injection Hids as <-. cbn. now rewrite append_empty_r.
    - rewrite (write_stickers_ids _ ids _ s Hids).
      destruct ids as [|i0 ids]; [cbn in Hids; destruct x; try discriminate;
        destruct (ItemSpec.sticker_ids rest); discriminate|].
      unfold ItemSpec.sticker_section, ItemSpec.line at 1.
      cbn [append]. now rewrite !append_assoc. }
  destruct Hst as (ids & Hids & ->).
  rewrite getValue_extract.
  rewrite Hids in Hi. cbn [option_map] in Hi. injection Hi as <-.
  unfold logger_Println, logger_Output. do 2 f_equal.
  unfold ItemSpec.render, ItemSpec.line, ItemSpec.optional_line,
    ItemSpec.non_trivial, ItemSpec.present, ItemSpec.unescape_slashes.
  cbn [ItemSpec.marketName ItemSpec.quality ItemSpec.price ItemSpec.currency
       ItemSpec.float ItemSpec.stickers ItemSpec.inspectURL].
  subst B.
  destruct (ItemSpec.extract fg itemData "ui_float" EmptyString =? EmptyString)%string;
    destruct (ItemSpec.extract fg itemData "ui_float" EmptyString =? "<nil>")%string;
    destruct (ItemSpec.extract fg itemData "inspect_url" EmptyString =? EmptyString)%string;
    cbn [negb andb orb option_map]; unfold ItemSpec.line;
    rewrite ?append_assoc; cbn [append]; rewrite ?append_assoc; reflexivity.
Qed.

(** A relevant frame whose payload parses and has no item (a sticker is
    not a number): the decoder panics and nothing is written. *)
Lemma processMessage_no_item (message payload : string) (data itemData : Json.gomap)
      (s : State) :
  Json.Unmarshal_map message [] = (data, None) ->
  equals_string (map_index data "type") "newitems_go" = true ->
  map_index data "data" = Json.VString payload ->
  Json.Unmarshal_map payload [] = (itemData, None) ->
  ItemSpec.item_of fg itemData = None ->
  exists l x,
    Json.map_get itemData "stickers" = Some (Json.VSlice l)
    /\ In x l /\ (forall f, x <> Json.VFloat64 f)
    /\ processMessage fg message s = Panic (conversion_panic x "float64") s.
Proof.
  intros Hm Ht Hd Hp Hi.
  unfold ItemSpec.item_of in Hi.
  destruct (Json.map_get itemData "stickers") as [[| | | |l|]|] eqn:Hs;
    try discriminate.
  destruct (ItemSpec.sticker_ids l) as [ids|] eqn:Hids; [discriminate|].
  exists l.
  unfold processMessage. rewrite Hm, Ht. unfold bind at 1.
  rewrite Hd. cbn [assert_string ret]. rewrite Hp.
  unfold bind. rewrite !getValue_extract.
  unfold map_index. rewrite Hs.
  destruct l as [|y rest]; [discriminate|].
  match goal with
  | |- context [write_stickers (y :: rest) ?b s] =>
      destruct (write_stickers_panics (y :: rest) b s Hids)
        as (x & Hin & Hx & s' & Hpanic)
  end.
  exists x. repeat split; auto.
  rewrite Hpanic. f_equal.
  (* the state is untouched: the loop only grows its buffer *)
  clear - Hpanic.
  match type of Hpanic with
  | write_stickers ?l ?b s = _ => revert Hpanic; generalize b; generalize l
  end.
  intros l. induction l as [|z r IH]; intros b H; cbn in H; [discriminate|].
  destruct z; cbn in H; try (now injection H as _ <-).
  exact (IH _ H).
Qed.




(** C3.  A relevant frame whose [data] field is absent or is not a string
    makes the decoder panic at the type assertion: nothing is written to
    the log and the message is not dropped quietly. *)
Theorem C3_payload_not_a_string_panics
        (message : string) (data : Json.gomap) (v : Json.value) (s : State) :
  Json.Unmarshal_map message [] = (data, None) ->
  equals_string (map_index data "type") "newitems_go" = true ->
  map_index data "data" = v ->
  (forall payload, v <> Json.VString payload) ->
  processMessage fg message s = Panic (conversion_panic v "string") s.
Proof.
  intros Hm Ht Hd Hv.
  unfold processMessage. rewrite Hm, Ht. unfold bind. rewrite Hd.
  destruct v; try reflexivity. now contradiction (Hv s0).
Qed.

(** The part of C3 that holds: a [data] string that does not parse is
    reported in the log and the message is dropped. *)
Lemma payload_parse_error_logged
      (message payload : string) (data itemData : Json.gomap) (e : error) (s : State) :
  Json.Unmarshal_map message [] = (data, None) ->
  equals_string (map_index data "type") "newitems_go" = true ->
  map_index data "data" = Json.VString payload ->
  Json.Unmarshal_map payload [] = (itemData, Some e) ->
  processMessage fg message s = Ret tt (logged ("Data parse error: " ++ e) s).
Proof.
  intros Hm Ht Hd Hp.
  unfold processMessage. rewrite Hm, Ht. unfold bind. rewrite Hd.
  cbn [assert_string ret]. rewrite Hp. reflexivity.
Qed.

(** A frame that [Unmarshal] rejects is written to the log as it came. *)
Lemma processMessage_not_json
      (message : string) (data : Json.gomap) (e : error) (s : State) :
  Json.Unmarshal_map message [] = (data, Some e) ->
  processMessage fg message s = Ret tt (logged ("Non-JSON message: " ++ message) s).
Proof.
  intros Hm. unfold processMessage. rewrite Hm. reflexivity.
Qed.

(** A frame of another type is ignored. *)
Lemma processMessage_ignored (message : string) (data : Json.gomap) (s : State) :
  Json.Unmarshal_map message [] = (data, None) ->
  equals_string (map_index data "type") "newitems_go" = false ->
  processMessage fg message s = Ret tt s.
Proof.
  intros Hm Ht. unfold processMessage. rewrite Hm, Ht. reflexivity.
Qed.

(** C10.  There is a relevant frame whose payload parses and whose
    stickers form a non-empty array with an element that is not a number,
    on which the decoder panics at the [float64] assertion: the message is
    neither dropped with a log entry nor printed with a fallback. *)
Theorem C10_text_sticker_panics :
  exists (message payload : string) (data itemData : Json.gomap)
         (l : list Json.value) (x : Json.value),
    Json.Unmarshal_map message [] = (data, None)
    /\ equals_string (map_index data "type") "newitems_go" = true
    /\ map_index data "data" = Json.VString payload
    /\ Json.Unmarshal_map payload [] = (itemData, None)
    /\ Json.map_get itemData "stickers" = Some (Json.VSlice l)
    /\ l <> [] /\ In x l /\ (forall f, x <> Json.VFloat64 f)
    /\ forall s,
         processMessage fg message s
         = Panic "interface conversion: interface {} is string, not float64" s.
Proof.
  exists Samples.frame_text_sticker, Samples.payload_text_sticker,
    (fst (Json.Unmarshal_map Samples.frame_text_sticker [])),
    (fst (Json.Unmarshal_map Samples.payload_text_sticker [])),
    [Json.VFloat64 (Strconv.of_decimal false 4114 0); Json.VString "x"],
    (Json.VString "x").
  repeat split; try (vm_compute; reflexivity); try discriminate.
  right. left. reflexivity.
Qed.

End Decoder.



(** A frame without [data] for C3. *)
Lemma C3_witness_no_data :
  processMessage Samples.no_floats Samples.frame_no_data initial_state
  = Panic "interface conversion: interface {} is nil, not string" initial_state.
Proof.
  apply (C3_payload_not_a_string_panics Samples.no_floats Samples.frame_no_data
           (fst (Json.Unmarshal_map Samples.frame_no_data [])) Json.VNil initial_state);
    try (vm_compute; reflexivity).
  discriminate.
Defined.

(** ** What a call leaves alone *)

Section Keeps.
Variable R : State -> State -> Prop.
Hypothesis R_refl : forall s, R s s.
Hypothesis R_trans : forall a b c, R a b -> R b c -> R a c.

Lemma keeps_ret {A : Type} (a : A) : keeps R (ret a).
Proof. intros s. apply R_refl. Qed.

Lemma keeps_panic {A : Type} (msg : string) : keeps R (@panic A msg).
Proof. intros s. apply R_refl. Qed.

Lemma keeps_running {A : Type} : keeps R (fun s => @Running A s).
Proof. intros s. apply R_refl. Qed.

Lemma keeps_get_d : keeps R get_d.
Proof. intros s. apply R_refl. Qed.

Lemma keeps_bind {A B : Type} (m : M A) (k : A -> M B) :
  keeps R m -> (forall a, keeps R (k a)) -> keeps R (bind m k).
Proof.
  intros Hm Hk s. unfold bind. specialize (Hm s).
  destruct (m s) as [a s1| | |]; cbn in *; auto.
  specialize (Hk a s1). destruct (k a s1); cbn in *; eauto.
Qed.

Lemma keeps_returns {A : Type} (m : M A) (s s' : State) (a : A) :
  keeps R m -> m s = Ret a s' -> R s s'.
Proof.
  intros Hm H. specialize (Hm s). now rewrite H in Hm.
Qed.

End Keeps.

Lemma stable_refl (s : State) : stable s s.
Proof. unfold stable. repeat split; auto. Qed.

Lemma stable_trans (a b c : State) : stable a b -> stable b c -> stable a c.
Proof.
  unfold stable. intros (H1 & H2 & H3 & H4 & H5 & H6 & H7 & H8 & H9)
                        (G1 & G2 & G3 & G4 & G5 & G6 & G7 & G8 & G9).
  repeat split; try congruence; lia.
Qed.

Lemma only_logs_refl (s : State) : only_logs s s.
Proof.
  exists []. rewrite app_nil_r. destruct s; reflexivity.
Qed.

Lemma only_logs_trans (a b c : State) : only_logs a b -> only_logs b c -> only_logs a c.
Proof.
  intros [l1 ->] [l2 ->]. exists (l1 ++ l2)%list. cbn. now rewrite app_assoc.
Qed.

Lemma only_logs_stable (s s' : State) : only_logs s s' -> stable s s'.
Proof.
  intros [l ->]. unfold stable. cbn. repeat split; auto.
Qed.

Section DecoderFrame.
Variable fg : Strconv.float64 -> string.

Lemma keeps_logger_Output (text : string) : keeps only_logs (logger_Output text).
Proof.
  intros s. cbn. exists [log_entry text]. reflexivity.
Qed.

Lemma keeps_getValue (data : Json.gomap) (keys : list string) :
  keeps only_logs (getValue fg data keys).
Proof.
  unfold getValue. destruct keys as [|key more].
  - apply keeps_panic, only_logs_refl.
  - destruct (Json.map_get data key) as [[]|]; apply keeps_ret, only_logs_refl.
Qed.

Lemma keeps_write_stickers (l : list Json.value) :
  forall buffer, keeps only_logs (write_stickers l buffer).
Proof.
  induction l as [|x r IH]; intros buffer; cbn [write_stickers].
  - apply keeps_ret, only_logs_refl.
  - apply keeps_bind; [exact only_logs_trans| |intros f; apply IH].
    destruct x; try apply keeps_panic, only_logs_refl.
    apply keeps_ret, only_logs_refl.
Qed.

Lemma keeps_processMessage (message : string) :
  keeps only_logs (processMessage fg message).
Proof.
  unfold processMessage.
  destruct (Json.Unmarshal_map message []) as [data [e|]].
  { apply keeps_logger_Output. }
  destruct (equals_string (map_index data "type") "newitems_go");
    [|apply keeps_ret, only_logs_refl].
  apply keeps_bind; [exact only_logs_trans| |intros payload].
  { destruct (map_index data "data"); try apply keeps_panic, only_logs_refl.
    apply keeps_ret, only_logs_refl. }
  destruct (Json.Unmarshal_map payload []) as [itemData [e|]].
  { apply keeps_logger_Output. }
  repeat (apply keeps_bind;
          [exact only_logs_trans | apply keeps_getValue | intros ?]).
  apply keeps_bind; [exact only_logs_trans| |intros buffer].
  { destruct (map_index itemData "stickers") as [| | | |[|x r]|];
      try apply keeps_ret, only_logs_refl.
    apply keeps_write_stickers. }
  apply keeps_bind; [exact only_logs_trans | apply keeps_getValue | intros ?].
  apply keeps_logger_Output.
Qed.

End DecoderFrame.
(** ** Heartbeat and read loop *)

Lemma keeps_weaken {A : Type} (R R' : State -> State -> Prop) (m : M A) :
  (forall s s', R s s' -> R' s s') -> keeps R m -> keeps R' m.
Proof.
  intros HR Hm s. specialize (Hm s). destruct (m s); auto.
Qed.

Section Listening.
Variable fg : Strconv.float64 -> string.
Variable env : Env.

Lemma keeps_WriteMessage (c : ConnPtr) (msg : string) :
  keeps stable (WriteMessage env c msg).
Proof.
  intros s. unfold WriteMessage. destruct c as [i|]; cbn.
  - unfold stable. cbn. rewrite update_nth_length. repeat split; auto.
  - apply stable_refl.
Qed.

Lemma keeps_Close (c : ConnPtr) : keeps stable (Close c).
Proof.
  intros s. unfold Close. destruct c as [i|]; cbn.
  - unfold stable. cbn. rewrite update_nth_length. repeat split; auto.
  - apply stable_refl.
Qed.

Lemma keeps_listen_loop (fuel : nat) : keeps stable (listen_loop fg env fuel).
Proof.
  induction fuel as [|fuel IH]; cbn [listen_loop].
  - apply keeps_running, stable_refl.
  - apply keeps_bind; [exact stable_trans| |intros ev].
    { intros s. cbn. unfold stable. cbn. repeat split; auto. }
    destruct ev as [msg|err|].
    + apply keeps_bind; [exact stable_trans| |intros _; exact IH].
      apply (keeps_weaken only_logs); [exact only_logs_stable|].
      apply keeps_processMessage.
    + apply keeps_ret, stable_refl.
    + apply keeps_bind; [exact stable_trans|apply keeps_get_d, stable_refl|intros x].
      apply keeps_bind; [exact stable_trans|apply keeps_WriteMessage|intros [e|]].
      * apply keeps_ret, stable_refl.
      * apply keeps_bind; [exact stable_trans| |intros now].
        { intros s. cbn. unfold stable. cbn. repeat split; auto. }
        apply keeps_bind; [exact stable_trans| |intros _; exact IH].
        intros s. cbn. unfold stable. cbn. repeat split; auto.
Qed.

Lemma keeps_Listen (fuel : nat) : keeps stable (Listen fg env fuel).
Proof.
  unfold Listen.
  apply keeps_bind; [exact stable_trans|apply keeps_get_d, stable_refl|intros x].
  destruct (conn x); [|apply keeps_panic, stable_refl].
  unfold defer_Close.
  apply keeps_bind; [exact stable_trans|apply keeps_listen_loop|intros r].
  apply keeps_bind; [exact stable_trans|apply keeps_Close|intros _].
  apply keeps_ret, stable_refl.
Qed.

(** One event of a session. *)
Lemma listen_loop_step (fuel : nat) (s : State) :
  listen_loop fg env (S fuel) s
  = match feed env (w_events s) with
    | Frame msg =>
        bind (processMessage fg msg) (fun _ => listen_loop fg env fuel) (event_taken s)
    | ReadError err => Ret (Some err) (event_taken s)
    | Tick =>
        match conn (d s) with
        | None => Panic nil_dereference (event_taken s)
        | Some c =>
            match socket_write env (w_writes s) with
            | Some e => Ret (Some e) (written c "ping" (Some e) (event_taken s))
            | None => listen_loop fg env fuel (pinged env c (event_taken s))
            end
        end
    end.
Proof.
  cbn [listen_loop]. unfold bind at 1. unfold next_event.
  destruct (feed env (w_events s)) as [msg|err|]; try reflexivity.
  unfold bind, get_d, WriteMessage. cbn [d event_taken].
  destruct (conn (d s)) as [c|]; [|reflexivity].
  change (w_writes (event_taken s)) with (w_writes s).
  destruct (socket_write env (w_writes s)); reflexivity.
Qed.

(** C4.  A frame that fails to parse at the top level is written to the
    log as it came, the decoder returns, and the loop goes on with the
    events that follow. *)
Theorem C4_unparseable_frame_logged_and_loop_goes_on
        (message : string) (data : Json.gomap) (e : error) (s : State) (fuel : nat) :
  Json.Unmarshal_map message [] = (data, Some e) ->
  feed env (w_events s) = Frame message ->
  processMessage fg message s
  = Ret tt (logged ("Non-JSON message: " ++ message) s)
  /\ listen_loop fg env (S fuel) s
     = listen_loop fg env fuel
         (logged ("Non-JSON message: " ++ message) (event_taken s)).
Proof.
  intros Hm Hev. split.
  - exact (processMessage_not_json fg message data e s Hm).
  - rewrite listen_loop_step, Hev. unfold bind.
    now rewrite (processMessage_not_json fg message data e _ Hm).
Qed.

(** Whenever the loop returns, it returns the error of the first event
    that ends a session: no receive error was met before it, and every
    ping written before it succeeded. *)
Lemma listen_loop_returns (fuel : nat) :
  forall (s s' : State) (r : option error),
    listen_loop fg env fuel s = Ret r s' ->
    exists (e : error) (n k : nat),
      r = Some e
      /\ w_events s' = S (w_events s + n)
      /\ (forall i, (i < n)%nat ->
                    forall e', feed env (w_events s + i) <> ReadError e')
      /\ (forall j, (j < k)%nat -> socket_write env (w_writes s + j) = None)
      /\ ((feed env (w_events s + n) = ReadError e
           /\ w_writes s' = (w_writes s + k)%nat)
          \/ (feed env (w_events s + n) = Tick
              /\ socket_write env (w_writes s + k) = Some e
              /\ w_writes s' = S (w_writes s + k))).
Proof.
  induction fuel as [|fuel IH]; intros s s' r H; [discriminate|].
  rewrite listen_loop_step in H.
  destruct (feed env (w_events s)) as [msg|err|] eqn:Hev.
  - unfold bind in H.
    pose proof (keeps_processMessage fg msg (event_taken s)) as Hpm.
    destruct (processMessage fg msg (event_taken s)) as [[] s1| | |];
      try discriminate.
    cbn [final] in Hpm. destruct Hpm as [entries Hs1]. subst s1.
    destruct (IH _ _ _ H) as (e & n & k & -> & Hn & Hbefore & Hw & Hlast).
    cbn [w_events w_writes event_taken] in *.
    exists e, (S n), k. split; [reflexivity|].
    split; [rewrite Hn; f_equal; lia|].
    split.
    { intros [|i] Hi e'.
      - rewrite Nat.add_0_r, Hev. discriminate.
      - replace (w_events s + S i)%nat with (S (w_events s) + i)%nat by lia.
        apply Hbefore. lia. }
    split; [exact Hw|].
    replace (w_events s + S n)%nat with (S (w_events s) + n)%nat by lia.
    exact Hlast.
  - injection H as <- <-.
    exists err, 0%nat, 0%nat. cbn [w_events w_writes event_taken].
    rewrite !Nat.add_0_r.
    repeat split; auto; try (intros; lia).
  - destruct (conn (d s)) as [c|]; [|discriminate].
    destruct (socket_write env (w_writes s)) as [e|] eqn:Hw.
    + injection H as <- <-.
      exists e, 0%nat, 0%nat. cbn [w_events w_writes written event_taken].
      rewrite !Nat.add_0_r.
      split; [reflexivity|]. split; [reflexivity|].
      split; [intros; lia|]. split; [intros; lia|]. right. auto.
    + destruct (IH _ _ _ H) as (e & n & k & -> & Hn & Hbefore & Hok & Hlast).
      unfold pinged in *.
      cbn [w_events w_writes written event_taken with_d clock_read] in *.
      exists e, (S n), (S k). split; [reflexivity|].
      split; [rewrite Hn; f_equal; lia|].
      split.
      { intros [|i] Hi e'.
        - rewrite Nat.add_0_r, Hev. discriminate.
        - replace (w_events s + S i)%nat with (S (w_events s) + i)%nat by lia.
          apply Hbefore. lia. }
      split.
      { intros [|j] Hj.
        - rewrite Nat.add_0_r. exact Hw.
        - replace (w_writes s + S j)%nat with (S (w_writes s) + j)%nat by lia.
          apply Hok. lia. }
      replace (w_events s + S n)%nat with (S (w_events s) + n)%nat by lia.
      replace (w_writes s + S k)%nat with (S (w_writes s) + k)%nat by lia.
      exact Hlast.
Qed.

Lemma Listen_unfold (fuel : nat) (s : State) (c : nat) :
  conn (d s) = Some c ->
  Listen fg env fuel s
  = match listen_loop fg env fuel s with
    | Ret r s1 => Ret r (closed c s1)
    | o => o
    end.
Proof.
  intros Hc. unfold Listen, bind, get_d. rewrite Hc.
  unfold defer_Close, bind.
  destruct (listen_loop fg env fuel s); reflexivity.
Qed.

Lemma closed_is_closed (c : nat) (s : State) :
  (c < List.length (w_conns s))%nat ->
  conn_closed (conn_at (closed c s) c) = true.
Proof.
  intros Hc. unfold conn_at, closed. cbn [w_conns].
  now rewrite nth_update_nth.
Qed.

(** After [n] events that do not end the session the loop is where it
    would be had it started there. *)
Lemma listen_loop_skip (n : nat) :
  forall (fuel : nat) (s sn : State),
    session_after fg env n s = Some sn ->
    listen_loop fg env (n + fuel) s = listen_loop fg env fuel sn.
Proof.
  induction n as [|n IH]; intros fuel s sn H; cbn [session_after] in H.
  - now injection H as <-.
  - cbn [Nat.add]. rewrite listen_loop_step.
    destruct (feed env (w_events s)) as [msg|err|]; [|discriminate|].
    + unfold bind.
      destruct (processMessage fg msg (event_taken s)) as [[] s1| | |];
        try discriminate.
      exact (IH _ _ _ H).
    + destruct (conn (d s)) as [c|]; [|discriminate].
      destruct (socket_write env (w_writes s)); [discriminate|].
      exact (IH _ _ _ H).
Qed.

Lemma session_after_stable (n : nat) :
  forall (s sn : State), session_after fg env n s = Some sn -> stable s sn.
Proof.
  intros s sn H.
  pose proof (keeps_listen_loop (n + 0) s) as Hk.
  rewrite (listen_loop_skip n 0 s sn H) in Hk. exact Hk.
Qed.

(** C9.  When [Listen] returns, it returns the error of the first event
    that ends a session, a receive error of the reader or a failed ping,
    and the connection is closed: no receive error came before that
    event and every ping written before it succeeded.  Conversely, after
    any number of events that do not end the session, a receive error
    makes [Listen] return that error, and a tick whose ping fails makes it
    return the error of the write, in both cases with the connection
    closed, as soon as the loop is observed that far. *)
Theorem C9_session_ends_on_first_failure_and_is_closed
        (fuel : nat) (s s' : State) (c : nat) (r : option error) :
  conn (d s) = Some c ->
  (c < List.length (w_conns s))%nat ->
  Listen fg env fuel s = Ret r s' ->
  (exists (e : error) (n k : nat),
      r = Some e
      /\ conn_closed (conn_at s' c) = true
      /\ w_events s' = S (w_events s + n)
      /\ (forall i, (i < n)%nat ->
                    forall e', feed env (w_events s + i) <> ReadError e')
      /\ (forall j, (j < k)%nat -> socket_write env (w_writes s + j) = None)
      /\ ((feed env (w_events s + n) = ReadError e
           /\ w_writes s' = (w_writes s + k)%nat)
          \/ (feed env (w_events s + n) = Tick
              /\ socket_write env (w_writes s + k) = Some e
              /\ w_writes s' = S (w_writes s + k))))
  /\ (forall (n fuel0 : nat),
         match session_after fg env n s with
         | None => True
         | Some sn =>
             match feed env (w_events sn) with
             | ReadError e =>
                 Listen fg env (n + S fuel0) s
                 = Ret (Some e) (closed c (event_taken sn))
                 /\ conn_closed (conn_at (closed c (event_taken sn)) c) = true
             | Tick =>
                 match socket_write env (w_writes sn) with
                 | Some e =>
                     Listen fg env (n + S fuel0) s
                     = Ret (Some e)
                           (closed c (written c "ping" (Some e) (event_taken sn)))
                     /\ conn_closed
                          (conn_at (closed c (written c "ping" (Some e)
                                                (event_taken sn))) c) = true
                 | None => True
                 end
             | Frame _ => True
             end
         end).
Proof.
  intros Hc Hlt HL. split.
  - rewrite (Listen_unfold fuel s c Hc) in HL.
    pose proof (keeps_listen_loop fuel s) as Hst.
    destruct (listen_loop fg env fuel s) as [r1 s1| | |] eqn:Hloop;
      try discriminate.
    assert (Hr : r1 = r) by congruence.
    assert (Hs : s' = closed c s1) by congruence.
    subst r1 s'. clear HL.
    destruct (listen_loop_returns fuel s s1 r Hloop)
      as (e & n & k & -> & Hn & Hbefore & Hok & Hlast).
    exists e, n, k. split; [reflexivity|].
    split.
    { apply closed_is_closed. cbn [final] in Hst.
      destruct Hst as (_ & _ & _ & _ & Hlen & _). now rewrite Hlen. }
    cbn [closed w_events w_writes]. auto.
  - intros n fuel0.
    destruct (session_after fg env n s) as [sn|] eqn:Hn; [|exact I].
    destruct (session_after_stable n s sn Hn) as (Hcn & _ & _ & _ & Hlen & _).
    rewrite Hc in Hcn.
    destruct (feed env (w_events sn)) as [msg|e|] eqn:Hev; [exact I| |].
    + rewrite (Listen_unfold _ _ _ Hc), (listen_loop_skip n _ s sn Hn),
        listen_loop_step, Hev.
      split; [reflexivity|].
      apply closed_is_closed. cbn [event_taken w_conns]. now rewrite Hlen.
    + destruct (socket_write env (w_writes sn)) as [e|] eqn:Hw; [|exact I].
      rewrite (Listen_unfold _ _ _ Hc), (listen_loop_skip n _ s sn Hn),
        listen_loop_step, Hev, Hcn, Hw.
      split; [reflexivity|].
      apply closed_is_closed. unfold written. cbn [event_taken w_conns].
      now rewrite update_nth_length, Hlen.
Qed.

End Listening.

(** A line that is not JSON, met by a session that has just connected. *)
Lemma C4_witness_pong :
  processMessage Samples.no_floats "pong" (Samples.connected Samples.noisy)
  = Ret tt (logged "Non-JSON message: pong" (Samples.connected Samples.noisy))
  /\ listen_loop Samples.no_floats Samples.noisy 3
       (Samples.connected Samples.noisy)
     = listen_loop Samples.no_floats Samples.noisy 2
         (logged "Non-JSON message: pong"
            (event_taken (Samples.connected Samples.noisy))).
Proof.
  apply (C4_unparseable_frame_logged_and_loop_goes_on Samples.no_floats
           Samples.noisy "pong" [] Json.syntax_error
           (Samples.connected Samples.noisy) 2).
  - vm_compute. reflexivity.
  - vm_compute. reflexivity.
Defined.

(** The scenario of the specification for C9: the second ping of a session
    fails. *)
Lemma C9_witness_broken_pipe :
  exists s',
    Listen Samples.no_floats Samples.broken_pipe 10
      (Samples.connected Samples.broken_pipe)
    = Ret (Some "write: broken pipe") s'
    /\ conn_closed (conn_at s' 0) = true
    /\ w_events s' = 3%nat.
Proof.
  assert (Hrun : Listen Samples.no_floats Samples.broken_pipe 10
                   (Samples.connected Samples.broken_pipe)
                 = Ret (Some "write: broken pipe")
                       (final (Listen Samples.no_floats Samples.broken_pipe 10
                                 (Samples.connected Samples.broken_pipe))))
    by (vm_compute; reflexivity).
  assert (Hc : conn (d (Samples.connected Samples.broken_pipe)) = Some 0%nat)
    by (vm_compute; reflexivity).
  assert (Hlt : (0 < List.length
                       (w_conns (Samples.connected Samples.broken_pipe)))%nat)
    by (vm_compute; lia).
  destruct (C9_session_ends_on_first_failure_and_is_closed Samples.no_floats
              Samples.broken_pipe 10 _ _ 0%nat _ Hc Hlt Hrun)
    as [(e & n & k & _ & Hclosed & _) _].
  eexists. split; [exact Hrun|]. split; [exact Hclosed|].
  vm_compute. reflexivity.
Defined.

(** ** Reconnection supervisor *)

Section Supervisor.
Variable fg : Strconv.float64 -> string.
Variable env : Env.

Lemma ensure_token_returns (s : State) :
  exists r s', ensure_token env s = Ret r s' /\ retries (d s') = retries (d s).
Proof.
  unfold ensure_token, bind, time_Now, get_d. cbn [d clock_read].
  destruct (After (clock env (w_now s)) (tokenExpires (d s))).
  - destruct (UpdateToken_returns env (clock_read s))
      as (r & s' & H & _ & _ & _ & _ & Hr).
    exists r, s'. split; [exact H|exact Hr].
  - do 2 eexists. split; reflexivity.
Qed.

Lemma Connect_returns (s : State) :
  exists r s', Connect env s = Ret r s' /\ retries (d s') = retries (d s).
Proof.
  destruct (ensure_token_returns s) as ([e|] & s1 & He & Hr1).
  - exists (Some e), s1. split; [now apply Connect_token_error|exact Hr1].
  - pose proof (Connect_after_token env s s1 He) as HC.
    destruct (dialer env (w_dials s1)).
    + destruct HC as (s2 & H & _ & _ & _ & _ & Hr2).
      exists (Some e), s2. split; [exact H|congruence].
    + destruct HC as (r & s2 & sent & H & _ & _ & _ & Hr2 & _).
      exists r, s2. split; [exact H|congruence].
Qed.

(** Every call of [Initialize] returns, and leaves the retry counter at
    zero. *)
Lemma Initialize_resets_retries (s : State) :
  exists r s', Initialize env s = Ret r s' /\ retries (d s') = 0.
Proof.
  unfold Initialize, bind, modify_d.
  destruct (UpdateToken_returns env (with_d (set_retries 0) s))
    as ([e|] & s1 & -> & _ & _ & _ & _ & Hr1); cbn in Hr1.
  - exists (Some e), s1. split; [reflexivity|exact Hr1].
  - destruct (Connect_returns s1) as (r & s2 & -> & Hr2).
    exists r, s2. split; [reflexivity|congruence].
Qed.

Lemma main_iteration_never_exits (fuel : nat) (s : State) :
  match main_iteration fg env fuel s with
  | Exit _ _ => False
  | _ => True
  end.
Proof.
  unfold main_iteration. unfold bind at 1.
  destruct (Initialize_resets_retries s) as ([e|] & s1 & -> & Hr).
  - unfold bind, get_d. rewrite Hr. cbn. exact I.
  - unfold bind at 1.
    pose proof (keeps_Listen fg env fuel s1) as HL.
    destruct (Listen fg env fuel s1) as [[e|] s2| | |]; try exact I; try contradiction.
    cbn [final] in HL. destruct HL as (_ & _ & _ & Hr2 & _).
    unfold bind, logger_Printf, logger_Output, get_d. cbn [d logged].
    pose proof (keeps_Close (conn (d s2)) (logged ("Listen error: " ++ e) s2)) as HC.
    destruct (Close (conn (d s2)) (logged ("Listen error: " ++ e) s2))
      as [[] s3| | |]; try exact I; try contradiction.
    cbn [final] in HC. destruct HC as (_ & _ & _ & Hr3 & _).
    cbn [d logged] in Hr3. rewrite Hr3, Hr2, Hr. cbn. exact I.
Qed.

Lemma main_loop_never_exits (turns fuel : nat) :
  forall s,
    match main_loop fg env turns fuel s with
    | Exit _ _ => False
    | _ => True
    end.
Proof.
  induction turns as [|turns IH]; intros s; cbn [main_loop]; [exact I|].
  unfold bind. pose proof (main_iteration_never_exits fuel s) as H.
  destruct (main_iteration fg env fuel s) as [[] s1| | |]; auto.
  apply IH.
Qed.

End Supervisor.

(** C1.  The retry budget is never exhausted: [Initialize] sets the retry
    counter back to zero at every turn of the loop of [main], so the test
    against [MaxRetries] never holds and no run of the loop ends the
    process.  With a token endpoint that is down, five failed turns in a
    row are followed by a sixth attempt, and the counter stands at one. *)
Theorem C1_retry_budget_never_exhausted :
  (forall fg env turns fuel s,
      match main_loop fg env turns fuel s with
      | Exit _ _ => False
      | _ => True
      end)
  /\ (forall fg env fuel s, exists r s',
         Initialize env s = Ret r s' /\ retries (d s') = 0
         /\ match main_iteration fg env fuel s with
            | Ret _ s1 => retries (d s1) <= 1
            | _ => True
            end)
  /\ (exists s6,
         main Samples.no_floats Samples.endpoint_down 6 0 initial_state = Running s6
         /\ w_posts s6 = 6%nat
         /\ List.length (w_sleeps s6) = 6%nat
         /\ retries (d s6) = 1
         /\ last (w_log s6) EmptyString = "Reconnecting 1/5" ++ newline).
Proof.
  split; [|split].
  - intros. apply main_loop_never_exits.
  - intros fg env fuel s.
    destruct (Initialize_resets_retries env s) as (r & s' & H & Hr).
    exists r, s'. split; [exact H|]. split; [exact Hr|].
    unfold main_iteration. unfold bind at 1. rewrite H.
    destruct r as [e|].
    + unfold bind, get_d. rewrite Hr. cbn. rewrite Hr. cbn. lia.
    + unfold bind at 1.
      pose proof (keeps_Listen fg env fuel s') as HL.
      destruct (Listen fg env fuel s') as [[e|] s2| | |]; try exact I.
      * cbn [final] in HL. destruct HL as (_ & _ & _ & Hr2 & _).
        unfold bind, logger_Printf, logger_Output, get_d. cbn [d logged].
        pose proof (keeps_Close (conn (d s2)) (logged ("Listen error: " ++ e) s2)) as HC.
        destruct (Close (conn (d s2)) (logged ("Listen error: " ++ e) s2))
          as [[] s3| | |]; try exact I.
        cbn [final] in HC. destruct HC as (_ & _ & _ & Hr3 & _).
        cbn [d logged] in Hr3. rewrite Hr3, Hr2, Hr. cbn.
        rewrite Hr3, Hr2, Hr. cbn. lia.
      * cbn [final] in HL. destruct HL as (_ & _ & _ & Hr2 & _).
        cbn. lia.
  - eexists. split; [vm_compute; reflexivity|]. vm_compute. auto.
Qed.


(** ** Further facts and runs *)

(** The answers of the token endpoint named by the specification decode to
    the values used in C5 and C6. *)
Lemma decode_success_object (body T : string) :
  Json.parse body
  = Some (Json.JObject [("success", Json.JBool true); ("token", Json.JString T)]) ->
  Unmarshal_tokenData body zero_tokenData = (mkTokenData true T EmptyString, None).
Proof.
  intros H. unfold Unmarshal_tokenData. rewrite H. reflexivity.
Qed.

Lemma decode_failure_object (body E : string) :
  Json.parse body
  = Some (Json.JObject [("success", Json.JBool false); ("error", Json.JString E)]) ->
  Unmarshal_tokenData body zero_tokenData = (mkTokenData false EmptyString E, None).
Proof.
  intros H. unfold Unmarshal_tokenData. rewrite H. reflexivity.
Qed.

(** The keys of the answer are matched without regard to case. *)
Example decode_upper_case_keys :
  Unmarshal_tokenData (q "{'SUCCESS':true,'Token':'abc123'}") zero_tokenData
  = (mkTokenData true "abc123" EmptyString, None).
Proof. vm_compute. reflexivity. Qed.

(** A [success] that is not a boolean is a decoding error. *)
Example decode_wrong_type :
  snd (Unmarshal_tokenData (q "{'success':'yes','token':'abc123'}") zero_tokenData)
  = Some (Json.type_error "string" "bool").
Proof. vm_compute. reflexivity. Qed.

(** A frame without [data] met by a listening session ends the process: the
    panic of the decoder is the outcome of [main]. *)
Example missing_data_ends_the_process :
  exists s,
    main Samples.no_floats (Samples.healthy [Frame Samples.frame_ak47;
                                              Frame Samples.frame_no_data;
                                              Frame Samples.frame_ak47]) 3 5
         initial_state
    = Panic "interface conversion: interface {} is nil, not string" s
    /\ w_events s = 2%nat
    /\ List.length (w_conns s) = 1%nat
    /\ conn_closed (conn_at s 0) = false.
Proof.
  eexists. split; [vm_compute; reflexivity|]. vm_compute. auto.
Qed.

(** A payload that does not parse is reported and the session goes on. *)
Example bad_payload_is_dropped :
  processMessage Samples.no_floats Samples.frame_bad_payload initial_state
  = Ret tt (logged ("Data parse error: " ++ Json.syntax_error) initial_state).
Proof. vm_compute. reflexivity. Qed.

(** A payload with every section: the number is printed with two decimal
    digits, the stickers as integers, the address with plain slashes. *)
Example full_record :
  w_log (final (processMessage Samples.no_floats Samples.frame_full initial_state))
  = [newline
       ++ banner ++ newline
       ++ "Item: AWP" ++ newline
       ++ "Quality: FN" ++ newline
       ++ "Price: 12.51 RUB" ++ newline
       ++ "Float: 0.12" ++ newline
       ++ "Stickers:" ++ newline
       ++ "  - ID: 4114" ++ newline
       ++ "  - ID: 55" ++ newline
       ++ "Inspect: steam://run/730" ++ newline
       ++ banner ++ newline ++ newline].
Proof. vm_compute. reflexivity. Qed.

(** Sessions that are cut as soon as they listen: the counter never passes
    one and the supervisor reconnects for ever. *)
Example feed_down_reconnects_for_ever :
  exists s,
    main Samples.no_floats Samples.feed_down 7 3 initial_state = Running s
    /\ w_dials s = 7%nat
    /\ retries (d s) = 1.
Proof.
  eexists. split; [vm_compute; reflexivity|]. vm_compute. auto.
Qed.

(** Decimal literals are read to the nearest [float64] and printed from
    its exact value. *)
Example two_decimals_of_2675 :
  Strconv.FormatFloat_f (Strconv.of_decimal false 2675 (-3)) 2 = "2.67".
Proof. vm_compute. reflexivity. Qed.

Example no_decimals_ties_to_even :
  Strconv.FormatFloat_f (Strconv.of_decimal false 25 (-1)) 0 = "2"
  /\ Strconv.FormatFloat_f (Strconv.of_decimal false 35 (-1)) 0 = "4".
Proof. vm_compute. auto. Qed.

Example out_of_range_number :
  Strconv.ParseFloat false 1 309 = None.
Proof. vm_compute. reflexivity. Qed.

(* ================================================================= *)
(** * Further properties of the code *)

(** ** Token manager and transport session, as wholes *)

Section TokenAndTransport.
Variable env : Env.

(** Every path through [UpdateToken]. *)
Lemma UpdateToken_outcome (s : State) :
  exists r s' entry,
    UpdateToken env s = Ret r s'
    /\ w_posts s' = S (w_posts s) /\ w_dials s' = w_dials s
    /\ w_writes s' = w_writes s /\ w_events s' = w_events s
    /\ w_conns s' = w_conns s /\ w_sleeps s' = w_sleeps s
    /\ w_log s' = (w_log s ++ [entry])%list
    /\ conn (d s') = conn (d s) /\ retries (d s') = retries (d s)
    /\ lastPing (d s') = lastPing (d s)
    /\ match r with
       | Some _ => d s' = d s /\ w_now s' = w_now s
       | None =>
           w_now s' = S (w_now s)
           /\ tokenExpires (d s') = Add (clock env (w_now s)) (9 * Minute)
       end.
Proof.
  unfold UpdateToken, bind, http_Post.
  destruct (token_endpoint env (w_posts s)) as [[[body|err]]|err]; cbn [ReadAll].
  - destruct (Unmarshal_tokenData body zero_tokenData) as [data [e|]].
    + do 3 eexists. split; [reflexivity|]. cbn. repeat split; reflexivity.
    + destruct (Success data); do 3 eexists; (split; [reflexivity|]); cbn;
        repeat split; reflexivity.
  - do 3 eexists. split; [reflexivity|]. cbn. repeat split; reflexivity.
  - do 3 eexists. split; [reflexivity|]. cbn. repeat split; reflexivity.
Qed.

Lemma ensure_token_outcome (s : State) :
  ensure_token env s
  = if tokenExpires (d s) <? clock env (w_now s)
    then UpdateToken env (clock_read s)
    else Ret None (clock_read s).
Proof.
  unfold ensure_token, bind, time_Now, get_d, After. cbn.
  destruct (tokenExpires (d s) <? clock env (w_now s)); reflexivity.
Qed.

(** What the dial and the greeting leave alone. *)
Lemma Connect_after_token_frame (s s1 : State) :
  ensure_token env s = Ret None s1 ->
  exists r s2,
    Connect env s = Ret r s2
    /\ tokenExpires (d s2) = tokenExpires (d s1)
    /\ token (d s2) = token (d s1)
    /\ retries (d s2) = retries (d s1)
    /\ w_now s2 = w_now s1 /\ w_posts s2 = w_posts s1
    /\ w_sleeps s2 = w_sleeps s1.
Proof.
  intros H. unfold Connect, bind. rewrite H.
  unfold logger_Println, logger_Output, Dial. cbn -[ends_with_newline append].
  destruct (dialer env (w_dials s1)) as [e|].
  { do 2 eexists. split; [reflexivity|]. cbn. auto 10. }
  cbn -[ends_with_newline append].
  destruct (token (d s1)) as [|c0 tok] eqn:Htok;
    unfold WriteMessage, written; cbn -[ends_with_newline append];
    destruct (socket_write env (w_writes s1)) as [e|];
    cbn -[ends_with_newline append];
    try (do 2 eexists; split; [reflexivity|];
         cbn -[ends_with_newline append]; rewrite ?Htok; auto 10; fail).
  destruct (socket_write env (S (w_writes s1))) as [e|];
    cbn -[ends_with_newline append];
    do 2 eexists; (split; [reflexivity|]);
    cbn -[ends_with_newline append]; rewrite ?Htok; auto 10.
Qed.

(** X1.  Whatever makes [UpdateToken] return an error (the request, the
    reading of the body, its decoding, or a refusal of the endpoint): the
    watcher is left as it was, the clock is not read, one request was made
    and one entry was written to the log; nothing was dialled or sent. *)
Theorem UpdateToken_error_stores_nothing (s s' : State) (e : error) :
  UpdateToken env s = Ret (Some e) s' ->
  d s' = d s
  /\ w_now s' = w_now s
  /\ w_posts s' = S (w_posts s)
  /\ w_dials s' = w_dials s /\ w_writes s' = w_writes s
  /\ w_conns s' = w_conns s
  /\ exists entry, w_log s' = (w_log s ++ [entry])%list.
Proof.
  intros H.
  destruct (UpdateToken_outcome s)
    as (r & s1 & entry & Hu & Hp & Hd & Hw & _ & Hc & _ & Hl & _ & _ & _ & Hr).
  rewrite H in Hu. injection Hu as <- <-.
  destruct Hr as [Hsame Hnow]. repeat split; auto. now exists entry.
Qed.

(** X2.  Whatever the token endpoint answers, [UpdateToken] returns: it
    never panics and never ends the process; it makes exactly one request,
    writes exactly one entry to the log, and neither dials, nor writes to a
    connection, nor sleeps, nor touches the connection and the retry
    counter of the watcher. *)
Theorem UpdateToken_one_request_one_entry (s : State) :
  exists r s' entry,
    UpdateToken env s = Ret r s'
    /\ w_posts s' = S (w_posts s)
    /\ w_log s' = (w_log s ++ [entry])%list
    /\ w_dials s' = w_dials s /\ w_writes s' = w_writes s
    /\ w_conns s' = w_conns s /\ w_sleeps s' = w_sleeps s
    /\ conn (d s') = conn (d s) /\ retries (d s') = retries (d s).
Proof.
  destruct (UpdateToken_outcome s)
    as (r & s1 & entry & Hu & Hp & Hd & Hw & _ & Hc & Hs & Hl & Hcn & Hr & _).
  exists r, s1, entry. repeat split; auto.
Qed.

(** X3.  [Initialize] never dials with a token it did not just obtain:
    whenever a call of [Initialize] dials, the expiry it leaves in the
    watcher is nine minutes after a clock reading taken during that very
    call. *)
Theorem Initialize_dials_with_fresh_token (s s' : State) (r : option error) :
  Initialize env s = Ret r s' ->
  w_dials s' <> w_dials s ->
  exists k, (w_now s <= k < w_now s')%nat
            /\ tokenExpires (d s') = Add (clock env k) (9 * Minute).
Proof.
  unfold Initialize, bind, modify_d. intros H Hdial.
  destruct (UpdateToken_outcome (with_d (set_retries 0) s))
    as (r0 & s1 & entry & Hu & _ & Hd1 & _ & _ & _ & _ & _ & _ & _ & _ & Hr0).
  rewrite Hu in H. cbn [w_dials w_now with_d] in *.
  destruct r0 as [e|].
  { injection H as <- <-. congruence. }
  destruct Hr0 as [Hnow1 Hexp1].
  pose proof (ensure_token_outcome s1) as Hens.
  destruct (tokenExpires (d s1) <? clock env (w_now s1)).
  - destruct (UpdateToken_outcome (clock_read s1))
      as (r2 & s2 & entry2 & Hu2 & _ & Hd2 & _ & _ & _ & _ & _ & _ & _ & _ & Hr2).
    rewrite Hu2 in Hens. cbn [w_dials w_now clock_read] in *.
    destruct r2 as [e|].
    + rewrite (Connect_token_error env s1 s2 e Hens) in H.
      injection H as <- <-. congruence.
    + destruct Hr2 as [Hnow2 Hexp2].
      destruct (Connect_after_token_frame s1 s2 Hens)
        as (r3 & s3 & Hc & Hexp3 & _ & _ & Hnow3 & _).
      rewrite Hc in H. injection H as <- <-.
      exists (S (w_now s1)). split; [lia|]. congruence.
  - destruct (Connect_after_token_frame s1 _ Hens)
      as (r3 & s3 & Hc & Hexp3 & _ & _ & Hnow3 & _).
    rewrite Hc in H. injection H as <- <-.
    cbn [d w_now clock_read] in *.
    exists (w_now s). split; [lia|]. congruence.
Qed.

(** X4.  When the endpoint grants access with an empty token (or without
    naming one) and less than nine minutes pass before the dial,
    [Initialize] opens the session without authenticating it: the only
    message written to the new connection is the channel name. *)
Theorem Initialize_with_empty_token_only_subscribes (s : State) (body E : string) :
  token_endpoint env (w_posts s) = Ok (mkResponse (Ok body)) ->
  Unmarshal_tokenData body zero_tokenData = (mkTokenData true EmptyString E, None) ->
  clock env (S (w_now s)) <= Add (clock env (w_now s)) (9 * Minute) ->
  dialer env (w_dials s) = None ->
  socket_write env (w_writes s) = None ->
  exists s',
    Initialize env s = Ret None s'
    /\ token (d s') = EmptyString
    /\ conn (d s') = Some (List.length (w_conns s))
    /\ conn_sent (conn_at s' (List.length (w_conns s))) = ["newitems_go"]
    /\ w_writes s' = S (w_writes s).
Proof.
  intros Hpost Hdec Hclock Hdial Hwrite.
  unfold Initialize, bind at 1. unfold modify_d. unfold bind at 1.
  set (s0 := with_d (set_retries 0) s).
  assert (Hu : exists s1,
             UpdateToken env s0 = Ret None s1
             /\ token (d s1) = EmptyString
             /\ tokenExpires (d s1) = Add (clock env (w_now s)) (9 * Minute)
             /\ w_now s1 = S (w_now s) /\ w_dials s1 = w_dials s
             /\ w_writes s1 = w_writes s /\ w_conns s1 = w_conns s).
  { unfold UpdateToken, bind, http_Post. cbn [w_posts s0 with_d].
    rewrite Hpost. cbn [ReadAll]. rewrite Hdec. cbn [Success Token].
    eexists. split; [reflexivity|]. cbn. auto 10. }
  destruct Hu as (s1 & -> & Htok & Hexp & Hnow & Hd1 & Hw1 & Hc1).
  assert (Hens : ensure_token env s1 = Ret None (clock_read s1)).
  { rewrite ensure_token_outcome, Hexp, Hnow.
    destruct (Add (clock env (w_now s)) (9 * Minute) <? clock env (S (w_now s))) eqn:Hlt;
      [apply Z.ltb_lt in Hlt; lia | reflexivity]. }
  pose proof (Connect_after_token env s1 _ Hens) as HC.
  cbn [w_dials w_conns w_writes d clock_read] in HC.
  rewrite Hd1, Hdial, Htok in HC. cbv zeta in HC. cbn [is_empty] in HC.
  destruct HC as (r & s2 & sent & Hc & Hcs & _ & _ & _ & Hcn & Htok2 & Hr).
  destruct r as [e|].
  - destruct Hr as (k & Hk & _ & _ & Hfail & _). cbn in Hk.
    assert (k = 0)%nat by lia. subst k.
    rewrite Nat.add_0_r, Hw1, Hwrite in Hfail. discriminate.
  - destruct Hr as (Hsent & Hw2 & _).
    exists s2. split; [exact Hc|]. split; [exact Htok2|].
    split; [now rewrite Hcn, Hc1|].
    split.
    + unfold conn_at. rewrite Hcs, <- Hc1, nth_app_last. exact Hsent.
    + rewrite Hw2, Hw1. cbn. lia.
Qed.

(** X5.  [Connect] never closes a connection.  When the dial succeeds and a
    write of the greeting fails, [Connect] returns the error while the
    watcher points to the new connection, which is left open; the
    connections dialled before are untouched. *)
Theorem Connect_leaves_failed_session_open (s s1 s2 : State) (e : error) :
  ensure_token env s = Ret None s1 ->
  dialer env (w_dials s1) = None ->
  Connect env s = Ret (Some e) s2 ->
  conn (d s2) = Some (List.length (w_conns s1))
  /\ conn_closed (conn_at s2 (List.length (w_conns s1))) = false
  /\ List.length (w_conns s2) = S (List.length (w_conns s1))
  /\ forall i, (i < List.length (w_conns s1))%nat -> conn_at s2 i = conn_at s1 i.
Proof.
  intros Hens Hdial Hc.
  pose proof (Connect_after_token env s s1 Hens) as HC.
  rewrite Hdial in HC. cbv zeta in HC.
  destruct HC as (r & s3 & sent & Hc3 & Hcs & _ & _ & _ & Hcn & _).
  rewrite Hc in Hc3. injection Hc3 as <- <-.
  split; [exact Hcn|]. unfold conn_at. rewrite Hcs.
  split; [now rewrite nth_app_last|].
  split; [rewrite length_app; cbn; lia|].
  intros i Hi. now rewrite app_nth1.
Qed.

(** X6.  When the clock is past the expiry, the token sent on the new
    connection is the one that [Connect] has just obtained, not the one the
    watcher held: the endpoint names the token [T], the dial and the two
    writes succeed, and the connection receives [T] and the channel. *)
Theorem Connect_sends_the_refreshed_token (s : State) (body T E : string) :
  tokenExpires (d s) < clock env (w_now s) ->
  token_endpoint env (w_posts s) = Ok (mkResponse (Ok body)) ->
  Unmarshal_tokenData body zero_tokenData = (mkTokenData true T E, None) ->
  is_empty T = false ->
  dialer env (w_dials s) = None ->
  socket_write env (w_writes s) = None ->
  socket_write env (S (w_writes s)) = None ->
  exists s',
    Connect env s = Ret None s'
    /\ token (d s') = T
    /\ tokenExpires (d s') = Add (clock env (S (w_now s))) (9 * Minute)
    /\ conn_sent (conn_at s' (List.length (w_conns s))) = [T; "newitems_go"]
    /\ w_posts s' = S (w_posts s).
Proof.
  intros Hexp Hpost Hdec HT Hdial Hw1 Hw2.
  assert (Hu : exists s1,
             ensure_token env s = Ret None s1
             /\ token (d s1) = T
             /\ tokenExpires (d s1) = Add (clock env (S (w_now s))) (9 * Minute)
             /\ w_dials s1 = w_dials s /\ w_writes s1 = w_writes s
             /\ w_conns s1 = w_conns s /\ w_posts s1 = S (w_posts s)).
  { rewrite ensure_token_outcome.
    apply Z.ltb_lt in Hexp. rewrite Hexp.
    unfold UpdateToken, bind, http_Post. cbn [w_posts clock_read].
    rewrite Hpost. cbn [ReadAll]. rewrite Hdec. cbn [Success Token].
    eexists. split; [reflexivity|]. cbn. auto 10. }
  destruct Hu as (s1 & Hens & Htok & Hexp1 & Hd1 & Hwr1 & Hc1 & Hp1).
  pose proof (Connect_after_token env s s1 Hens) as HC.
  rewrite Hd1, Hdial in HC. cbv zeta in HC. rewrite Htok, HT in HC.
  destruct (Connect_after_token_frame s s1 Hens)
    as (r' & s2' & Hc' & Hexp2 & _ & _ & _ & Hp2 & _).
  destruct HC as (r & s2 & sent & Hc & Hcs & _ & _ & _ & Hcn & Htok2 & Hr).
  rewrite Hc in Hc'. injection Hc' as <- <-.
  destruct r as [e|].
  - destruct Hr as (k & Hk & _ & _ & Hfail & _). cbn in Hk.
    assert (k = 0 \/ k = 1)%nat as [->| ->] by lia.
    + rewrite Nat.add_0_r, Hwr1, Hw1 in Hfail. discriminate.
    + replace (w_writes s1 + 1)%nat with (S (w_writes s)) in Hfail by lia.
      rewrite Hw2 in Hfail. discriminate.
  - destruct Hr as (Hsent & _).
    exists s2. split; [exact Hc|]. split; [exact Htok2|].
    split; [congruence|].
    split; [|congruence].
    unfold conn_at. rewrite Hcs, <- Hc1, nth_app_last. exact Hsent.
Qed.

End TokenAndTransport.

(** The endpoint is down. *)
Lemma UpdateToken_error_stores_nothing_witness :
  d (final (UpdateToken Samples.endpoint_down (Samples.holding "old" 7)))
  = d (Samples.holding "old" 7)
  /\ w_posts (final (UpdateToken Samples.endpoint_down (Samples.holding "old" 7))) = 1%nat.
Proof.
  destruct (UpdateToken_error_stores_nothing Samples.endpoint_down
              (Samples.holding "old" 7)
              (final (UpdateToken Samples.endpoint_down (Samples.holding "old" 7)))
              "dial tcp: connection refused" eq_refl)
    as (Hd & _ & Hp & _).
  split; [exact Hd|exact Hp].
Defined.

(** A first connection in a world where everything works. *)
Lemma Initialize_dials_with_fresh_token_witness :
  exists k, (0 <= k < 2)%nat
            /\ tokenExpires (d (final (Initialize (Samples.healthy []) initial_state)))
               = Add (clock (Samples.healthy []) k) (9 * Minute).
Proof.
  assert (Hrun : Initialize (Samples.healthy []) initial_state
                 = Ret None (final (Initialize (Samples.healthy []) initial_state)))
    by (vm_compute; reflexivity).
  assert (Hd : w_dials (final (Initialize (Samples.healthy []) initial_state))
               <> w_dials initial_state)
    by (vm_compute; discriminate).
  exact (Initialize_dials_with_fresh_token (Samples.healthy []) initial_state _ None
           Hrun Hd).
Defined.

(** The endpoint grants access without a token. *)
Lemma Initialize_with_empty_token_only_subscribes_witness :
  exists s',
    Initialize (MoreSamples.answering MoreSamples.token_missing []) initial_state
    = Ret None s'
    /\ token (d s') = EmptyString
    /\ conn (d s') = Some 0%nat
    /\ conn_sent (conn_at s' 0) = ["newitems_go"]
    /\ w_writes s' = 1%nat.
Proof.
  apply (Initialize_with_empty_token_only_subscribes
           (MoreSamples.answering MoreSamples.token_missing []) initial_state
           MoreSamples.token_missing EmptyString).
  - reflexivity.
  - vm_compute. reflexivity.
  - vm_compute. discriminate.
  - reflexivity.
  - reflexivity.
Defined.

(** The token cannot be written to the connection just dialled. *)
Lemma Connect_leaves_failed_session_open_witness :
  conn (d (final (Connect MoreSamples.first_write_fails
                    (Samples.holding "abc" (10 * Minute))))) = Some 0%nat
  /\ conn_closed (conn_at (final (Connect MoreSamples.first_write_fails
                                    (Samples.holding "abc" (10 * Minute)))) 0) = false.
Proof.
  destruct (Connect_leaves_failed_session_open MoreSamples.first_write_fails
              (Samples.holding "abc" (10 * Minute))
              (clock_read (Samples.holding "abc" (10 * Minute)))
              (final (Connect MoreSamples.first_write_fails
                        (Samples.holding "abc" (10 * Minute))))
              "write: broken pipe" eq_refl eq_refl eq_refl)
    as (Hc & Hopen & _).
  split; [exact Hc|exact Hopen].
Defined.

(** A watcher whose token expired, in a world where everything works. *)
Lemma Connect_sends_the_refreshed_token_witness :
  exists s',
    Connect (Samples.healthy []) MoreSamples.expired = Ret None s'
    /\ token (d s') = "abc123"
    /\ tokenExpires (d s') = Add (clock (Samples.healthy []) 1) (9 * Minute)
    /\ conn_sent (conn_at s' 0) = ["abc123"; "newitems_go"]
    /\ w_posts s' = 1%nat.
Proof.
  apply (Connect_sends_the_refreshed_token (Samples.healthy []) MoreSamples.expired
           Samples.token_ok "abc123" EmptyString).
  - vm_compute. reflexivity.
  - reflexivity.
  - vm_compute. reflexivity.
  - reflexivity.
  - reflexivity.
  - reflexivity.
  - reflexivity.
Defined.

(** ** The decoder, as a whole *)

Lemma relog_initial (s : State) : relog s initial_state = s.
Proof.
  destruct s. unfold relog. cbn. now rewrite app_nil_r.
Qed.

Lemma relog_relog (s s0 x : State) : relog (relog s s0) x = relog s (relog s0 x).
Proof.
  unfold relog. cbn. now rewrite app_assoc.
Qed.

Lemma replay_replay {A : Type} (s s0 : State) (o : Outcome A) :
  replay (relog s s0) o = replay s (replay s0 o).
Proof.
  destruct o; cbn; now rewrite relog_relog.
Qed.

Lemma stateless_ret {A : Type} (a : A) : stateless (ret a).
Proof.
  intros s. unfold ret. cbn. now rewrite relog_initial.
Qed.

Lemma stateless_panic {A : Type} (msg : string) : stateless (@panic A msg).
Proof.
  intros s. unfold panic. cbn. now rewrite relog_initial.
Qed.

Lemma stateless_bind {A B : Type} (m : M A) (k : A -> M B) :
  stateless m -> (forall a, stateless (k a)) -> stateless (bind m k).
Proof.
  intros Hm Hk s. unfold bind. rewrite (Hm s).
  destruct (m initial_state) as [a s0| | |]; cbn [replay]; try reflexivity.
  rewrite (Hk a (relog s s0)), (Hk a s0). apply replay_replay.
Qed.

Lemma stateless_logger_Output (text : string) : stateless (logger_Output text).
Proof.
  intros s. reflexivity.
Qed.

Section DecoderWhole.
Variable fg : Strconv.float64 -> string.

Lemma stateless_getValue (data : Json.gomap) (keys : list string) :
  stateless (getValue fg data keys).
Proof.
  unfold getValue. destruct keys as [|key more].
  - apply stateless_panic.
  - destruct (Json.map_get data key) as [[]|]; apply stateless_ret.
Qed.

Lemma stateless_write_stickers (l : list Json.value) :
  forall buffer, stateless (write_stickers l buffer).
Proof.
  induction l as [|x r IH]; intros buffer; cbn [write_stickers].
  - apply stateless_ret.
  - apply stateless_bind; [|intros f; apply IH].
    destruct x; try apply stateless_panic. apply stateless_ret.
Qed.

Lemma stateless_processMessage (message : string) :
  stateless (processMessage fg message).
Proof.
  unfold processMessage.
  destruct (Json.Unmarshal_map message []) as [data [e|]].
  { apply stateless_logger_Output. }
  destruct (equals_string (map_index data "type") "newitems_go");
    [|apply stateless_ret].
  apply stateless_bind; [|intros payload].
  { destruct (map_index data "data"); try apply stateless_panic.
    apply stateless_ret. }
  destruct (Json.Unmarshal_map payload []) as [itemData [e|]].
  { apply stateless_logger_Output. }
  repeat (apply stateless_bind; [apply stateless_getValue | intros ?]).
  apply stateless_bind; [|intros buffer].
  { destruct (map_index itemData "stickers") as [| | | |[|x r]|];
      try apply stateless_ret.
    apply stateless_write_stickers. }
  apply stateless_bind; [apply stateless_getValue | intros ?].
  apply stateless_logger_Output.
Qed.

Lemma processMessage_data_not_string
      (message : string) (data : Json.gomap) (s : State) :
  Json.Unmarshal_map message [] = (data, None) ->
  equals_string (map_index data "type") "newitems_go" = true ->
  (forall payload, map_index data "data" <> Json.VString payload) ->
  processMessage fg message s
  = Panic (conversion_panic (map_index data "data") "string") s.
Proof.
  intros Hm Ht Hv.
  unfold processMessage. rewrite Hm, Ht. unfold bind.
  destruct (map_index data "data") as [| | |p| |]; try reflexivity.
  now contradiction (Hv p).
Qed.

(** The six ways through the decoder. *)
Lemma processMessage_cases (message : string) (s : State) :
  (exists text, processMessage fg message s = Ret tt (logged text s))
  \/ processMessage fg message s = Ret tt s
  \/ exists data,
       Json.Unmarshal_map message [] = (data, None)
       /\ equals_string (map_index data "type") "newitems_go" = true
       /\ ((forall payload, map_index data "data" <> Json.VString payload)
           /\ processMessage fg message s
              = Panic (conversion_panic (map_index data "data") "string") s
           \/ exists payload itemData l x,
                map_index data "data" = Json.VString payload
                /\ Json.Unmarshal_map payload [] = (itemData, None)
                /\ Json.map_get itemData "stickers" = Some (Json.VSlice l)
                /\ In x l /\ (forall f, x <> Json.VFloat64 f)
                /\ processMessage fg message s
                   = Panic (conversion_panic x "float64") s).
Proof.
  destruct (Json.Unmarshal_map message []) as [data [e|]] eqn:Hm.
  { left. eexists. exact (processMessage_not_json fg message data e s Hm). }
  destruct (equals_string (map_index data "type") "newitems_go") eqn:Ht.
  2:{ right. left. exact (processMessage_ignored fg message data s Hm Ht). }
  destruct (map_index data "data") as [| | |payload| |] eqn:Hd;
    try (right; right; exists data; split; [reflexivity|]; split; [exact Ht|];
         left; split; [rewrite Hd; discriminate|];
         apply (processMessage_data_not_string message data s Hm Ht);
         rewrite Hd; discriminate).
  destruct (Json.Unmarshal_map payload []) as [itemData [e|]] eqn:Hp.
  { left. eexists.
    exact (payload_parse_error_logged fg message payload data itemData e s Hm Ht Hd Hp). }
  destruct (ItemSpec.item_of fg itemData) as [item|] eqn:Hi.
  { left. eexists.
    exact (processMessage_relevant fg message payload data itemData s item
             Hm Ht Hd Hp Hi). }
  right. right. exists data. split; [reflexivity|]. split; [exact Ht|]. right.
  destruct (processMessage_no_item fg message payload data itemData s Hm Ht Hd Hp Hi)
    as (l & x & Hl & Hin & Hx & Hpanic).
  exists payload, itemData, l, x. auto 10.
Qed.

(** X7.  The decoder is a function of the frame alone: in any state it
    returns or panics as it does in the initial state, and appends to the
    log the entries it appends there, at most one; it changes nothing else
    (neither the watcher nor any connection), and a frame that makes it
    panic leaves no entry. *)
Theorem processMessage_depends_on_the_frame_only (message : string) (s : State) :
  processMessage fg message s = replay s (processMessage fg message initial_state)
  /\ w_log (final (processMessage fg message s))
     = (w_log s ++ entries fg message)%list
  /\ (List.length (entries fg message) <= 1)%nat
  /\ (forall msg s0,
         processMessage fg message initial_state = Panic msg s0 ->
         entries fg message = []).
Proof.
  pose proof (stateless_processMessage message s) as Hs.
  split; [exact Hs|]. split.
  { rewrite Hs. unfold entries.
    destruct (processMessage fg message initial_state); reflexivity. }
  unfold entries.
  destruct (processMessage_cases message initial_state)
    as [[text H]|[H|(data & _ & _ & [[_ H]|(p & i & l & x & _ & _ & _ & _ & _ & H)])]];
    rewrite H; cbn; split; auto; try discriminate.
Qed.

(** X8.  The decoder panics on two kinds of frames only, both of type
    [newitems_go]: those whose [data] is not a string, and those whose
    payload parses and lists a sticker that is not a number.  In both cases
    the state is left as it was. *)
Theorem processMessage_panics_only_on_bad_data_or_sticker
        (message msg : string) (s s' : State) :
  processMessage fg message s = Panic msg s' ->
  s' = s
  /\ exists data,
       Json.Unmarshal_map message [] = (data, None)
       /\ equals_string (map_index data "type") "newitems_go" = true
       /\ ((forall payload, map_index data "data" <> Json.VString payload)
           /\ msg = conversion_panic (map_index data "data") "string"
           \/ exists payload itemData l x,
                map_index data "data" = Json.VString payload
                /\ Json.Unmarshal_map payload [] = (itemData, None)
                /\ Json.map_get itemData "stickers" = Some (Json.VSlice l)
                /\ In x l /\ (forall f, x <> Json.VFloat64 f)
                /\ msg = conversion_panic x "float64").
Proof.
  intros H.
  destruct (processMessage_cases message s)
    as [[text H1]|[H1|(data & Hm & Ht & [[Hv H1]|(p & i & l & x & Hd & Hp & Hl & Hin & Hx & H1)])]];
    rewrite H1 in H; try discriminate; injection H as <- <-;
    (split; [reflexivity|]); exists data; (split; [exact Hm|]);
    (split; [exact Ht|]).
  - left. auto.
  - right. exists p, i, l, x. auto 10.
Qed.

Lemma FormatFloat_f_non_trivial (f : Strconv.float64) :
  Strconv.is_finite f = true ->
  ItemSpec.non_trivial (Strconv.FormatFloat_f f 2) = Some (Strconv.FormatFloat_f f 2).
Proof.
  intros Hf.
  destruct (FormatFloat_f_two_decimals f Hf) as (whole & d1 & d2 & -> & _).
  unfold ItemSpec.non_trivial.
  set (t := whole ++ String "."%char (String d1 (String d2 EmptyString))).
  assert (H1 : (t =? EmptyString)%string = false).
  { apply String.eqb_neq. subst t. destruct whole; discriminate. }
  assert (H2 : (t =? "<nil>")%string = false).
  { apply String.eqb_neq. subst t.
    destruct whole as [|a [|b [|c [|x [|y w]]]]]; cbn; try discriminate.
    destruct w; discriminate. }
  now rewrite H1, H2.
Qed.

(** X9.  A float attribute given as a number is always shown: for a
    relevant frame whose payload parses with a numeric [ui_float], the
    record that the decoder writes has its float section, holding the
    number with two decimal digits. *)
Theorem numeric_float_is_always_shown
        (message payload : string) (data itemData : Json.gomap)
        (f : Strconv.float64) (s s' : State) :
  Json.Unmarshal_map message [] = (data, None) ->
  equals_string (map_index data "type") "newitems_go" = true ->
  map_index data "data" = Json.VString payload ->
  Json.Unmarshal_map payload [] = (itemData, None) ->
  Json.map_get itemData "ui_float" = Some (Json.VFloat64 f) ->
  processMessage fg message s = Ret tt s' ->
  exists item,
    s' = logged (ItemSpec.render item ++ newline) s
    /\ ItemSpec.float item = Some (Strconv.FormatFloat_f f 2)
    /\ ItemSpec.optional_line "Float: " (ItemSpec.float item)
       = "Float: " ++ Strconv.FormatFloat_f f 2 ++ newline.
Proof.
  intros Hm Ht Hd Hp Hf Hret.
  destruct (ItemSpec.item_of fg itemData) as [item|] eqn:Hitem.
  2:{ destruct (processMessage_no_item fg _ _ _ _ s Hm Ht Hd Hp Hitem)
        as (l & x & _ & _ & _ & Hpanic).
      rewrite Hpanic in Hret. discriminate. }
  rewrite (processMessage_relevant fg _ _ _ _ s item Hm Ht Hd Hp Hitem) in Hret.
  exists item. split; [congruence|].
  assert (Hfl : ItemSpec.float item = Some (Strconv.FormatFloat_f f 2)).
  { unfold ItemSpec.item_of in Hitem.
    destruct (match Json.map_get itemData "stickers" with
              | Some (Json.VSlice l) => ItemSpec.sticker_ids l
              | _ => Some []
              end) as [ids|]; [|discriminate].
    cbn [option_map] in Hitem. injection Hitem as <-.
    cbn [ItemSpec.float]. unfold ItemSpec.extract. rewrite Hf.
    apply FormatFloat_f_non_trivial.
    exact (Unmarshal_map_top_finite _ _ _ Hp _ _ Hf). }
  split; [exact Hfl|]. rewrite Hfl. reflexivity.
Qed.

End DecoderWhole.

(** A frame without [data]. *)
Lemma processMessage_panics_only_on_bad_data_or_sticker_witness :
  exists data,
    Json.Unmarshal_map Samples.frame_no_data [] = (data, None)
    /\ equals_string (map_index data "type") "newitems_go" = true.
Proof.
  destruct (processMessage_panics_only_on_bad_data_or_sticker Samples.no_floats
              Samples.frame_no_data
              "interface conversion: interface {} is nil, not string"
              initial_state initial_state)
    as (_ & data & Hm & Ht & _).
  - vm_compute. reflexivity.
  - exists data. split; [exact Hm|exact Ht].
Defined.

(** A payload whose float is the number [0.125]. *)
Lemma numeric_float_is_always_shown_witness :
  exists item,
    final (processMessage Samples.no_floats MoreSamples.frame_float initial_state)
    = logged (ItemSpec.render item ++ newline) initial_state
    /\ ItemSpec.float item = Some "0.12".
Proof.
  assert (Hm : Json.Unmarshal_map MoreSamples.frame_float []
               = (fst (Json.Unmarshal_map MoreSamples.frame_float []), None))
    by (vm_compute; reflexivity).
  assert (Ht : equals_string
                 (map_index (fst (Json.Unmarshal_map MoreSamples.frame_float [])) "type")
                 "newitems_go" = true)
    by (vm_compute; reflexivity).
  assert (Hd : map_index (fst (Json.Unmarshal_map MoreSamples.frame_float [])) "data"
               = Json.VString MoreSamples.payload_float)
    by (vm_compute; reflexivity).
  assert (Hp : Json.Unmarshal_map MoreSamples.payload_float []
               = (fst (Json.Unmarshal_map MoreSamples.payload_float []), None))
    by (vm_compute; reflexivity).
  assert (Hf : Json.map_get (fst (Json.Unmarshal_map MoreSamples.payload_float []))
                 "ui_float"
               = Some (Json.VFloat64 (Strconv.of_decimal false 125 (-3))))
    by (vm_compute; reflexivity).
  assert (Hrun : processMessage Samples.no_floats MoreSamples.frame_float initial_state
                 = Ret tt (final (processMessage Samples.no_floats
                                    MoreSamples.frame_float initial_state)))
    by (vm_compute; reflexivity).
  destruct (numeric_float_is_always_shown Samples.no_floats
              MoreSamples.frame_float MoreSamples.payload_float _ _ _
              initial_state _ Hm Ht Hd Hp Hf Hrun)
    as (item & Hs & Hfl & _).
  exists item. split; [exact Hs|]. rewrite Hfl. vm_compute. reflexivity.
Defined.

(** ** A listening session, as a whole *)

Lemma update_nth_ext {A : Type} (i : nat) (f g : A -> A) (l : list A) :
  (forall x, f x = g x) -> update_nth i f l = update_nth i g l.
Proof.
  intros H. revert i. induction l as [|x r IH]; intros [|j]; cbn; auto.
  - now rewrite H.
  - now rewrite IH.
Qed.

Lemma update_nth_id {A : Type} (i : nat) (f : A -> A) (l : list A) :
  (forall x, f x = x) -> update_nth i f l = l.
Proof.
  intros H. revert i. induction l as [|x r IH]; intros [|j]; cbn; auto.
  - now rewrite H.
  - now rewrite IH.
Qed.

Lemma update_nth_twice {A : Type} (i : nat) (f g : A -> A) (l : list A) :
  update_nth i g (update_nth i f l) = update_nth i (fun x => g (f x)) l.
Proof.
  revert i. induction l as [|x r IH]; intros [|j]; cbn; auto.
  now rewrite IH.
Qed.

Lemma nth_update_nth_other {A : Type} (i j : nat) (f : A -> A) (l : list A) (dflt : A) :
  i <> j -> nth i (update_nth j f l) dflt = nth i l dflt.
Proof.
  revert i j. induction l as [|x r IH]; intros [|i] [|j] H; cbn; auto;
    try congruence.
Qed.

Lemma awake_refl (s : State) : awake s s.
Proof. unfold awake. auto. Qed.

Lemma awake_trans (a b c : State) : awake a b -> awake b c -> awake a c.
Proof.
  unfold awake. intros (H1 & H2 & H3) (G1 & G2 & G3).
  repeat split; try congruence; lia.
Qed.

Lemma only_logs_awake (s s' : State) : only_logs s s' -> awake s s'.
Proof.
  intros [l ->]. unfold awake. cbn. auto.
Qed.

Section ListeningWhole.
Variable fg : Strconv.float64 -> string.
Variable env : Env.

Lemma awake_listen_loop (fuel : nat) : keeps awake (listen_loop fg env fuel).
Proof.
  induction fuel as [|fuel IH]; cbn [listen_loop].
  - apply keeps_running, awake_refl.
  - apply keeps_bind; [exact awake_trans| |intros ev].
    { intros s. cbn. unfold awake. cbn. auto. }
    destruct ev as [msg|err|].
    + apply keeps_bind; [exact awake_trans| |intros _; exact IH].
      apply (keeps_weaken only_logs); [exact only_logs_awake|].
      apply keeps_processMessage.
    + apply keeps_ret, awake_refl.
    + apply keeps_bind; [exact awake_trans|apply keeps_get_d, awake_refl|intros x].
      apply keeps_bind; [exact awake_trans| |intros [e|]].
      { intros s. unfold WriteMessage. destruct (conn x); cbn;
          unfold awake; cbn; auto. }
      * apply keeps_ret, awake_refl.
      * apply keeps_bind; [exact awake_trans| |intros now].
        { intros s. cbn. unfold awake. cbn. auto. }
        apply keeps_bind; [exact awake_trans| |intros _; exact IH].
        intros s. cbn. unfold awake. cbn. auto.
Qed.

Lemma awake_Listen (fuel : nat) : keeps awake (Listen fg env fuel).
Proof.
  unfold Listen.
  apply keeps_bind; [exact awake_trans|apply keeps_get_d, awake_refl|intros x].
  destruct (conn x) as [c|]; [|apply keeps_panic, awake_refl].
  unfold defer_Close.
  apply keeps_bind; [exact awake_trans|apply awake_listen_loop|intros r].
  apply keeps_bind; [exact awake_trans| |intros _; apply keeps_ret, awake_refl].
  intros s. cbn. unfold awake. cbn. auto.
Qed.

(** X10.  A session never touches the credentials: whatever happens while
    [Listen] runs, and however long, the token and its expiry are not
    refreshed (no request goes to the token endpoint), nothing is dialled,
    the watcher keeps its connection and its retry counter, the process
    does not sleep and is not ended through [os.Exit]. *)
Theorem Listen_never_refreshes_nor_redials (fuel : nat) (s : State) :
  let o := Listen fg env fuel s in
  token (d (final o)) = token (d s)
  /\ tokenExpires (d (final o)) = tokenExpires (d s)
  /\ conn (d (final o)) = conn (d s)
  /\ retries (d (final o)) = retries (d s)
  /\ w_posts (final o) = w_posts s
  /\ w_dials (final o) = w_dials s
  /\ List.length (w_conns (final o)) = List.length (w_conns s)
  /\ w_sleeps (final o) = w_sleeps s
  /\ match o with Exit _ _ => False | _ => True end.
Proof.
  cbv zeta.
  pose proof (keeps_Listen fg env fuel s) as Hst.
  pose proof (awake_Listen fuel s) as Haw.
  destruct (Listen fg env fuel s); try contradiction; cbn [final] in *;
    destruct Hst as (H1 & H2 & H3 & H4 & H5 & H6 & H7 & _);
    destruct Haw as (G1 & _); auto 10.
Qed.

(** Whatever the loop does, the connections are those it started with,
    except that the one it listens on was sent some pings. *)
Lemma listen_loop_pings (fuel : nat) :
  forall (s : State) (c : nat),
    conn (d s) = Some c ->
    exists k,
      pinged_times c k s (final (listen_loop fg env fuel s))
      /\ (w_writes (final (listen_loop fg env fuel s)) = (w_writes s + k)%nat
          \/ w_writes (final (listen_loop fg env fuel s)) = S (w_writes s + k)).
Proof.
  assert (Hid : forall (c : nat) (a b : State),
             w_conns b = w_conns a -> pinged_times c 0 a b).
  { intros c0 a b H. unfold pinged_times. rewrite H. symmetry.
    apply update_nth_id. intros [sent cl]. cbn. now rewrite app_nil_r. }
  induction fuel as [|fuel IH]; intros s c Hc.
  { exists 0%nat. cbn [listen_loop final]. split; [now apply Hid|]. left. lia. }
  rewrite listen_loop_step.
  destruct (feed env (w_events s)) as [msg|err|].
  - unfold bind.
    pose proof (keeps_processMessage fg msg (event_taken s)) as Hpm.
    destruct (processMessage fg msg (event_taken s)) as [[] s1|m s1|code s1|s1];
      try contradiction; cbn [final] in Hpm; destruct Hpm as [ents Hs1];
      assert (Hcs : w_conns s1 = w_conns s) by (rewrite Hs1; reflexivity);
      assert (Hws : w_writes s1 = w_writes s) by (rewrite Hs1; reflexivity).
    + assert (Hc1 : conn (d s1) = Some c) by (rewrite Hs1; exact Hc).
      destruct (IH s1 c Hc1) as (k & Hk & Hw).
      exists k. split; [|rewrite <- Hws; exact Hw].
      unfold pinged_times in *. now rewrite Hk, Hcs.
    + exists 0%nat. cbn [final]. split; [now apply Hid|]. left. lia.
    + exists 0%nat. cbn [final]. split; [now apply Hid|]. left. lia.
  - exists 0%nat. cbn [final]. split; [now apply Hid|]. left. cbn. lia.
  - rewrite Hc. destruct (socket_write env (w_writes s)) as [e|].
    + exists 0%nat. cbn [final]. split.
      * unfold pinged_times. cbn. apply update_nth_ext. intros [sent cl]. cbn.
        now rewrite app_nil_r.
      * right. cbn. lia.
    + destruct (IH (pinged env c (event_taken s)) c Hc) as (k & Hk & Hw).
      exists (S k). split.
      * unfold pinged_times in *. rewrite Hk. unfold pinged. cbn.
        rewrite update_nth_twice. apply update_nth_ext. intros [sent cl]. cbn.
        now rewrite <- app_assoc.
      * change (w_writes (pinged env c (event_taken s))) with (S (w_writes s)) in Hw.
        lia.
Qed.

(** X11.  While it listens the program writes nothing but pings: when
    [Listen] returns, the connection it listened on has received some
    number of [ping] messages after those it had (one per tick whose write
    succeeded), and every other connection is as it was. *)
Theorem Listen_only_writes_pings
        (fuel : nat) (s s' : State) (c : nat) (r : option error) :
  conn (d s) = Some c ->
  (c < List.length (w_conns s))%nat ->
  Listen fg env fuel s = Ret r s' ->
  exists k,
    conn_sent (conn_at s' c) = (conn_sent (conn_at s c) ++ List.repeat "ping" k)%list
    /\ (w_writes s' = (w_writes s + k)%nat \/ w_writes s' = S (w_writes s + k))
    /\ forall i, i <> c -> conn_at s' i = conn_at s i.
Proof.
  intros Hc Hlt HL.
  rewrite (Listen_unfold fg env fuel s c Hc) in HL.
  destruct (listen_loop_pings fuel s c Hc) as (k & Hk & Hw).
  destruct (listen_loop fg env fuel s) as [r1 s1| | |]; try discriminate.
  assert (Hs : s' = closed c s1) by congruence. subst s'.
  cbn [final] in *. unfold pinged_times in Hk.
  exists k. split; [|split; [exact Hw|]].
  - unfold conn_at, closed. cbn [w_conns]. rewrite Hk.
    rewrite !nth_update_nth; try reflexivity; try exact Hlt.
    now rewrite update_nth_length.
  - intros i Hi. unfold conn_at, closed. cbn [w_conns]. rewrite Hk.
    now rewrite !nth_update_nth_other.
Qed.

Lemma entries_of_frame (message : string) (s : State) :
  w_log (final (processMessage fg message s)) = (w_log s ++ entries fg message)%list.
Proof.
  rewrite (stateless_processMessage fg message s). unfold entries.
  destruct (processMessage fg message initial_state); reflexivity.
Qed.

Lemma listen_loop_log (fuel : nat) :
  forall s : State,
    exists n,
      w_events (final (listen_loop fg env fuel s)) = (w_events s + n)%nat
      /\ w_log (final (listen_loop fg env fuel s))
         = (w_log s ++ flat_map (entries fg) (frames env (w_events s) n))%list.
Proof.
  induction fuel as [|fuel IH]; intros s.
  { exists 0%nat. cbn. now rewrite Nat.add_0_r, app_nil_r. }
  rewrite listen_loop_step.
  destruct (feed env (w_events s)) as [msg|err|] eqn:Hev.
  - unfold bind.
    pose proof (entries_of_frame msg (event_taken s)) as Hlog.
    pose proof (keeps_processMessage fg msg (event_taken s)) as Hpm.
    destruct (processMessage fg msg (event_taken s)) as [[] s1|m s1|code s1|s1];
      try contradiction; cbn [final] in *.
    + destruct (IH s1) as (n & Hn & Hl).
      destruct Hpm as [ents Hs1].
      assert (He : w_events s1 = S (w_events s)) by (rewrite Hs1; reflexivity).
      exists (S n). split; [rewrite Hn, He; lia|].
      rewrite Hl, Hlog, He. cbn [frames event_taken w_log]. rewrite Hev.
      cbn [flat_map]. now rewrite app_assoc.
    + destruct Hpm as [ents Hs1].
      exists 1%nat. split; [rewrite Hs1; cbn; lia|].
      rewrite Hlog. cbn [frames event_taken w_log]. rewrite Hev. cbn [flat_map].
      now rewrite app_nil_r.
    + destruct Hpm as [ents Hs1].
      exists 1%nat. split; [rewrite Hs1; cbn; lia|].
      rewrite Hlog. cbn [frames event_taken w_log]. rewrite Hev. cbn [flat_map].
      now rewrite app_nil_r.
  - exists 1%nat. cbn [final event_taken w_events w_log frames]. rewrite Hev.
    cbn. split; [lia|now rewrite app_nil_r].
  - destruct (conn (d s)) as [c|].
    + destruct (socket_write env (w_writes s)) as [e|].
      * exists 1%nat. cbn [final event_taken written w_events w_log frames].
        rewrite Hev. cbn. split; [lia|now rewrite app_nil_r].
      * destruct (IH (pinged env c (event_taken s))) as (n & Hn & Hl).
        change (w_events (pinged env c (event_taken s))) with (S (w_events s)) in Hn, Hl.
        change (w_log (pinged env c (event_taken s))) with (w_log s) in Hl.
        exists (S n). split; [rewrite Hn; lia|].
        rewrite Hl. cbn [frames]. now rewrite Hev.
    + exists 1%nat. cbn [final event_taken w_events w_log frames]. rewrite Hev.
      cbn. split; [lia|now rewrite app_nil_r].
Qed.

(** X12.  Frames are decoded in the order of their arrival and nothing else
    is logged by a session: whatever the outcome of [Listen], the log has
    grown by the entries of the decoder for the frames among the events
    taken, in that order; ticks, pings and the error that ends the session
    write nothing. *)
Theorem Listen_logs_the_frames_in_order (fuel : nat) (s : State) :
  exists n,
    w_events (final (Listen fg env fuel s)) = (w_events s + n)%nat
    /\ w_log (final (Listen fg env fuel s))
       = (w_log s ++ flat_map (entries fg) (frames env (w_events s) n))%list.
Proof.
  destruct (conn (d s)) as [c|] eqn:Hc.
  - rewrite (Listen_unfold fg env fuel s c Hc).
    destruct (listen_loop_log fuel s) as (n & Hn & Hl).
    exists n. destruct (listen_loop fg env fuel s); cbn [final closed] in *; auto.
  - exists 0%nat. unfold Listen, bind, get_d. rewrite Hc. cbn.
    now rewrite Nat.add_0_r, app_nil_r.
Qed.

End ListeningWhole.

(** The session whose second ping fails. *)
Lemma Listen_only_writes_pings_witness :
  exists k,
    conn_sent (conn_at (final (Listen Samples.no_floats Samples.broken_pipe 10
                                 (Samples.connected Samples.broken_pipe))) 0)
    = (["abc123"; "newitems_go"] ++ List.repeat "ping" k)%list.
Proof.
  assert (Hrun : Listen Samples.no_floats Samples.broken_pipe 10
                   (Samples.connected Samples.broken_pipe)
                 = Ret (Some "write: broken pipe")
                       (final (Listen Samples.no_floats Samples.broken_pipe 10
                                 (Samples.connected Samples.broken_pipe))))
    by (vm_compute; reflexivity).
  assert (Hc : conn (d (Samples.connected Samples.broken_pipe)) = Some 0%nat)
    by (vm_compute; reflexivity).
  assert (Hlt : (0 < List.length (w_conns (Samples.connected Samples.broken_pipe)))%nat)
    by (vm_compute; lia).
  destruct (Listen_only_writes_pings Samples.no_floats Samples.broken_pipe 10
              _ _ 0%nat _ Hc Hlt Hrun) as (k & Hk & _).
  exists k. exact Hk.
Defined.

(** Two items around a line that is not JSON and a ping: three entries, in
    the order of the frames. *)
Example busy_session_log :
  w_log (final (Listen Samples.no_floats MoreSamples.busy 10
                  (Samples.connected MoreSamples.busy)))
  = (w_log (Samples.connected MoreSamples.busy)
       ++ entries Samples.no_floats Samples.frame_ak47
       ++ entries Samples.no_floats "pong"
       ++ entries Samples.no_floats Samples.frame_full)%list.
Proof. vm_compute. reflexivity. Qed.

(** ** The loop of [main], turn by turn *)

Section SupervisorWhole.
Variable fg : Strconv.float64 -> string.
Variable env : Env.

(** What a call of [Initialize] costs: one or two requests to the token
    endpoint, at most one dial, no sleep. *)
Lemma Initialize_summary (s : State) :
  exists r s1,
    Initialize env s = Ret r s1
    /\ retries (d s1) = 0
    /\ w_sleeps s1 = w_sleeps s
    /\ (w_posts s < w_posts s1 <= w_posts s + 2)%nat
    /\ (w_dials s <= w_dials s1 <= S (w_dials s))%nat.
Proof.
  unfold Initialize, bind, modify_d.
  destruct (UpdateToken_outcome env (with_d (set_retries 0) s))
    as (r & s1 & entry & -> & Hp & Hd & _ & _ & _ & Hs & _ & _ & Hr & _ & _).
  cbn in Hp, Hd, Hs, Hr.
  destruct r as [e|].
  { exists (Some e), s1. split; [reflexivity|]. repeat split; try congruence; lia. }
  assert (Hcr : w_posts (clock_read s1) = w_posts s1
                /\ w_dials (clock_read s1) = w_dials s1
                /\ w_sleeps (clock_read s1) = w_sleeps s1
                /\ retries (d (clock_read s1)) = retries (d s1))
    by (cbn; auto).
  destruct Hcr as (Cp & Cd & Cs & Cr).
  assert (Hafter : forall s2,
             ensure_token env s1 = Ret None s2 ->
             w_posts s2 = w_posts (clock_read s1) \/ w_posts s2 = S (w_posts (clock_read s1)) ->
             w_dials s2 = w_dials (clock_read s1) ->
             w_sleeps s2 = w_sleeps (clock_read s1) ->
             retries (d s2) = retries (d (clock_read s1)) ->
             exists r s3,
               Connect env s1 = Ret r s3
               /\ retries (d s3) = 0
               /\ w_sleeps s3 = w_sleeps s
               /\ (w_posts s < w_posts s3 <= w_posts s + 2)%nat
               /\ (w_dials s <= w_dials s3 <= S (w_dials s))%nat).
  { intros s2 He Hp2 Hd2 Hs2 Hr2.
    destruct (Connect_after_token_frame env s1 s2 He)
      as (r & s3 & HC & _ & _ & Hr3 & _ & Hp3 & Hs3).
    destruct (Connect_counts_after_token env s1 s2 He) as (_ & Hd3).
    rewrite HC in Hd3. cbn [final] in Hd3.
    exists r, s3. split; [exact HC|].
    repeat split; try congruence; lia. }
  destruct (tokenExpires (d s1) <? clock env (w_now s1)) eqn:Hexp.
  - destruct (UpdateToken_outcome env (clock_read s1))
      as (r2 & s2 & entry2 & HU & Hp2 & Hd2 & _ & _ & _ & Hs2 & _ & _ & Hr2 & _ & _).
    destruct r2 as [e|].
    + exists (Some e), s2. split.
      * apply Connect_token_error. rewrite ensure_token_outcome, Hexp. exact HU.
      * repeat split; try congruence; lia.
    + apply (Hafter s2); auto.
      rewrite ensure_token_outcome, Hexp. exact HU.
  - apply (Hafter (clock_read s1)); auto.
    rewrite ensure_token_outcome, Hexp. reflexivity.
Qed.

(** A turn whose [Initialize] fails. *)
Lemma failed_turn (fuel : nat) (s s1 : State) (e : error) :
  Initialize env s = Ret (Some e) s1 ->
  main_iteration fg env fuel s
  = Ret tt (slept ReconnectDelay
              (logged ("Reconnecting 1/5" ++ newline) (with_d (set_retries 1) s1))).
Proof.
  intros H.
  assert (Hr : retries (d s1) = 0).
  { destruct (Initialize_resets_retries env s) as (r & s' & H' & Hr). congruence. }
  unfold main_iteration. unfold bind at 1. rewrite H.
  unfold bind, get_d, modify_d, logger_Printf, logger_Output, time_Sleep.
  rewrite Hr. cbn -[append newline]. unfold with_d, set_retries. cbn -[append newline].
  rewrite Hr. reflexivity.
Qed.

Lemma Listen_returns_error (fuel : nat) (s s' : State) (r : option error) :
  Listen fg env fuel s = Ret r s' ->
  exists e c, r = Some e /\ conn (d s) = Some c.
Proof.
  intros H. destruct (conn (d s)) as [c|] eqn:Hc.
  - rewrite (Listen_unfold fg env fuel s c Hc) in H.
    destruct (listen_loop fg env fuel s) as [r1 s1| | |] eqn:HL; try discriminate.
    destruct (listen_loop_returns fg env fuel s s1 r1 HL) as (e & _ & _ & -> & _).
    exists e, c. split; congruence.
  - unfold Listen, bind, get_d in H. rewrite Hc in H. discriminate.
Qed.

(** A turn whose session ends. *)
Lemma session_turn (fuel : nat) (s s1 s2 : State) (r : option error) :
  Initialize env s = Ret None s1 ->
  Listen fg env fuel s1 = Ret r s2 ->
  exists e c,
    r = Some e /\ conn (d s1) = Some c
    /\ main_iteration fg env fuel s
       = Ret tt (slept ReconnectDelay
                   (with_d (set_retries 1)
                      (closed c (logged ("Listen error: " ++ e) s2)))).
Proof.
  intros HI HL.
  assert (Hr : retries (d s1) = 0).
  { destruct (Initialize_resets_retries env s) as (r' & s' & H' & Hr). congruence. }
  destruct (Listen_returns_error fuel s1 s2 r HL) as (e & c & -> & Hc).
  pose proof (keeps_Listen fg env fuel s1) as Hst. rewrite HL in Hst.
  cbn [final] in Hst. destruct Hst as (Hc2 & _ & _ & Hr2 & _).
  exists e, c. split; [reflexivity|]. split; [exact Hc|].
  unfold main_iteration. unfold bind at 1. rewrite HI.
  unfold bind at 1. rewrite HL.
  unfold bind, get_d, modify_d, logger_Printf, logger_Output, time_Sleep, Close.
  cbn [d logged]. rewrite Hc2, Hc. cbn [d closed logged]. rewrite Hr2, Hr.
  cbn -[append]. unfold with_d, set_retries. cbn -[append].
  rewrite Hr2, Hr. reflexivity.
Qed.

(** One turn: its requests and dials, and its sleep when it completes. *)
Lemma main_iteration_summary (fuel : nat) (s : State) :
  (w_posts s < w_posts (final (main_iteration fg env fuel s)) <= w_posts s + 2)%nat
  /\ (w_dials (final (main_iteration fg env fuel s)) <= S (w_dials s))%nat
  /\ match main_iteration fg env fuel s with
     | Ret _ s' => w_sleeps s' = (w_sleeps s ++ [ReconnectDelay])%list
                   /\ retries (d s') = 1
     | Exit _ _ => False
     | o => w_sleeps (final o) = w_sleeps s
     end.
Proof.
  destruct (Initialize_summary s) as (r & s1 & HI & Hr & Hs & Hp & Hd).
  destruct r as [e|].
  { rewrite (failed_turn fuel s s1 e HI). cbn [final slept logged with_d
      w_posts w_dials w_sleeps d set_retries retries].
    rewrite Hs. repeat split; lia. }
  pose proof (keeps_Listen fg env fuel s1) as Hst.
  pose proof (awake_Listen fg env fuel s1) as Haw.
  destruct (Listen fg env fuel s1) as [r2 s2|m s2|code s2|s2] eqn:HL;
    try contradiction.
  - destruct (session_turn fuel s s1 s2 r2 HI HL) as (e & c & -> & Hc & ->).
    cbn [final] in *.
    destruct Hst as (_ & _ & _ & _ & _ & Hp2 & Hd2 & _).
    destruct Haw as (Hs2 & _).
    cbn [final slept logged with_d closed w_posts w_dials w_sleeps d
         set_retries retries].
    rewrite Hp2, Hd2, Hs2, Hs. repeat split; lia.
  - unfold main_iteration, bind. rewrite HI. cbn beta iota. rewrite HL.
    cbn [final] in *.
    destruct Hst as (_ & _ & _ & _ & _ & Hp2 & Hd2 & _).
    destruct Haw as (Hs2 & _).
    rewrite Hp2, Hd2, Hs2, Hs. repeat split; lia.
  - unfold main_iteration, bind. rewrite HI. cbn beta iota. rewrite HL.
    cbn [final] in *.
    destruct Hst as (_ & _ & _ & _ & _ & Hp2 & Hd2 & _).
    destruct Haw as (Hs2 & _).
    rewrite Hp2, Hd2, Hs2, Hs. repeat split; lia.
Qed.

End SupervisorWhole.

Section Pacing.
Variable fg : Strconv.float64 -> string.
Variable env : Env.

(** X13.  The process is ended through [os.Exit] in one case only: when
    the log file cannot be created, [main] exits with code 1 before it does
    anything else; when it can, [main] is its loop on a fresh watcher,
    whatever the state before, and no number of turns of it exits. *)
Theorem main_exits_only_without_a_log_file (turns fuel : nat) (s : State) :
  match log_file env with
  | Some _ => main fg env turns fuel s = Exit 1 s
  | None =>
      main fg env turns fuel s
      = main_loop fg env turns fuel (with_d (fun _ => new_watcher) s)
      /\ match main fg env turns fuel s with
         | Exit _ _ => False
         | _ => True
         end
  end.
Proof.
  unfold main, createLogger, bind, ret, modify_d, os_Exit.
  destruct (log_file env) as [e|]; [reflexivity|].
  split; [reflexivity|]. apply main_loop_never_exits.
Qed.

(** X14.  A failed [Initialize] is always reported as the first retry of
    five: the turn logs [Reconnecting 1/5], sleeps for the reconnect delay
    and leaves the retry counter at one, whatever the counter was before
    the turn; it closes no connection and dials nothing more. *)
Theorem failed_Initialize_is_always_the_first_retry
        (fuel : nat) (s s1 : State) (e : error) :
  Initialize env s = Ret (Some e) s1 ->
  exists s',
    main_iteration fg env fuel s = Ret tt s'
    /\ w_log s' = (w_log s1 ++ [("Reconnecting 1/5" ++ newline)%string])%list
    /\ w_sleeps s' = (w_sleeps s ++ [ReconnectDelay])%list
    /\ retries (d s') = 1
    /\ w_conns s' = w_conns s1
    /\ conn (d s') = conn (d s1)
    /\ w_dials s' = w_dials s1 /\ w_posts s' = w_posts s1.
Proof.
  intros H.
  assert (Hs : w_sleeps s1 = w_sleeps s).
  { destruct (Initialize_summary env s) as (r & s0 & H0 & _ & Hs & _). congruence. }
  eexists. split; [apply (failed_turn fg env fuel s s1 e H)|].
  cbn [slept logged with_d w_log w_sleeps w_conns w_dials w_posts d
       set_retries retries conn].
  rewrite Hs. repeat split.
Qed.

(** X15.  A turn of the loop that completes has slept exactly once, for the
    reconnect delay, after one or two requests to the token endpoint and at
    most one dial, and it leaves the retry counter at one. *)
Theorem completed_turn_sleeps_once (fuel : nat) (s s' : State) :
  main_iteration fg env fuel s = Ret tt s' ->
  w_sleeps s' = (w_sleeps s ++ [ReconnectDelay])%list
  /\ retries (d s') = 1
  /\ (w_posts s < w_posts s' <= w_posts s + 2)%nat
  /\ (w_dials s' <= S (w_dials s))%nat.
Proof.
  intros H.
  destruct (main_iteration_summary fg env fuel s) as (Hp & Hd & Hm).
  rewrite H in Hp, Hd, Hm. cbn [final] in Hp, Hd.
  destruct Hm as (Hs & Hr). auto.
Qed.

(** X16.  The loop is paced: over any number of turns, every sleep lasts
    the reconnect delay and there is at most one sleep per turn; when [k]
    sleeps are done, at least [k] and at most [2 (k + 1)] requests went to
    the token endpoint and at most [k + 1] dials were made. *)
Theorem main_loop_is_paced (turns fuel : nat) (s : State) :
  exists k,
    (k <= turns)%nat
    /\ w_sleeps (final (main_loop fg env turns fuel s))
       = (w_sleeps s ++ List.repeat ReconnectDelay k)%list
    /\ (w_posts s + k <= w_posts (final (main_loop fg env turns fuel s))
        <= w_posts s + 2 * S k)%nat
    /\ (w_dials (final (main_loop fg env turns fuel s)) <= w_dials s + S k)%nat.
Proof.
  revert s. induction turns as [|turns IH]; intros s.
  { exists 0%nat. cbn [main_loop final List.repeat]. rewrite app_nil_r.
    repeat split; lia. }
  cbn [main_loop]. unfold bind.
  destruct (main_iteration_summary fg env fuel s) as (Hp & Hd & Hm).
  destruct (main_iteration fg env fuel s) as [[] s1|m s1|code s1|s1];
    cbn [final] in *; try contradiction.
  - destruct Hm as (Hs & _).
    destruct (IH s1) as (k & Hk & Hsl & Hpo & Hdi).
    exists (S k). split; [lia|]. split.
    + rewrite Hsl, Hs. cbn [List.repeat]. now rewrite <- app_assoc.
    + split; lia.
  - exists 0%nat. cbn [List.repeat]. rewrite app_nil_r.
    repeat split; try assumption; lia.
  - exists 0%nat. cbn [List.repeat]. rewrite app_nil_r.
    repeat split; try assumption; lia.
Qed.

End Pacing.

(** The token endpoint is down. *)
Lemma failed_Initialize_is_always_the_first_retry_witness :
  exists s',
    main_iteration Samples.no_floats Samples.endpoint_down 0 initial_state = Ret tt s'
    /\ last (w_log s') EmptyString = "Reconnecting 1/5" ++ newline
    /\ w_sleeps s' = [ReconnectDelay].
Proof.
  assert (H : Initialize Samples.endpoint_down initial_state
              = Ret (Some "dial tcp: connection refused")
                    (final (Initialize Samples.endpoint_down initial_state)))
    by (vm_compute; reflexivity).
  destruct (failed_Initialize_is_always_the_first_retry
              Samples.no_floats Samples.endpoint_down 0 _ _ _ H)
    as (s' & Hrun & Hlog & Hsl & _).
  exists s'. split; [exact Hrun|]. split.
  - rewrite Hlog. apply last_last.
  - exact Hsl.
Defined.

(** The feed is down: the session ends at its first event. *)
Lemma completed_turn_sleeps_once_witness :
  w_sleeps (final (main_iteration Samples.no_floats Samples.feed_down 5 initial_state))
  = [ReconnectDelay].
Proof.
  assert (H : main_iteration Samples.no_floats Samples.feed_down 5 initial_state
              = Ret tt (final (main_iteration Samples.no_floats Samples.feed_down 5
                                 initial_state)))
    by (vm_compute; reflexivity).
  destruct (completed_turn_sleeps_once Samples.no_floats Samples.feed_down 5 _ _ H)
    as (Hs & _).
  exact Hs.
Defined.

(** Without a log file nothing is attempted. *)
Example no_log_file_run :
  main Samples.no_floats MoreSamples.no_log_file 3 5 initial_state
  = Exit 1 initial_state.
Proof. reflexivity. Qed.

(** ** What the log tells *)

Section Reporting.
Variable fg : Strconv.float64 -> string.
Variable env : Env.

Lemma reports_prefix (p : string) (e : error) :
  In p failure_prefixes -> reports (log_entry (p ++ e)) e.
Proof. intros H. left. exists p. auto. Qed.

Ltac report :=
  let H := fresh "H" in
  intros H; injection H as <- <-;
  unfold told, logged; cbn [w_log]; rewrite last_last;
  first
    [ reflexivity
    | apply (reports_prefix "Token request error: " _); cbn; auto 10; fail
    | apply (reports_prefix "Response read error: " _); cbn; auto 10; fail
    | apply (reports_prefix "Token parse error: " _); cbn; auto 10; fail
    | apply (reports_prefix "Connection error: " _); cbn; auto 10; fail
    | apply (reports_prefix "Token send error: " _); cbn; auto 10; fail
    | apply (reports_prefix "Subscribe error: " _); cbn; auto 10; fail ].

Lemma UpdateToken_told (s s' : State) (r : option error) :
  UpdateToken env s = Ret r s' -> told "Token updated" r s'.
Proof.
  unfold UpdateToken, bind, http_Post, logger_Printf, logger_Println,
    logger_Output, ret, modify_d, time_Now.
  destruct (token_endpoint env (w_posts s)) as [[[body|err]]|err]; cbn [ReadAll].
  - destruct (Unmarshal_tokenData body zero_tokenData) as [data [e|]].
    + report.
    + destruct (Success data); [report|].
      intros H; injection H as <- <-.
      unfold told, logged; cbn [w_log]; rewrite last_last.
      right. exists (Error data). split; reflexivity.
  - report.
  - report.
Qed.

Lemma Connect_told (s s' : State) (r : option error) :
  Connect env s = Ret r s' -> told "Connected successfully" r s'.
Proof.
  assert (Hafter : forall s1,
             ensure_token env s = Ret None s1 ->
             Connect env s = Ret r s' -> told "Connected successfully" r s').
  { intros s1 He. unfold Connect, bind. rewrite He.
    unfold logger_Println, logger_Printf, logger_Output, Dial.
    cbn -[ends_with_newline append log_entry].
    destruct (dialer env (w_dials s1)) as [e|]; [report|].
    cbn -[ends_with_newline append log_entry].
    destruct (token (d s1)) as [|c0 tok] eqn:Htok;
      unfold WriteMessage, written; cbn -[ends_with_newline append log_entry];
      destruct (socket_write env (w_writes s1)) as [e|];
      cbn -[ends_with_newline append log_entry];
      try (report; fail).
    destruct (socket_write env (S (w_writes s1))) as [e|];
      cbn -[ends_with_newline append log_entry]; report. }
  intros H. pose proof (ensure_token_outcome env s) as He.
  destruct (tokenExpires (d s) <? clock env (w_now s)).
  - destruct (UpdateToken_outcome env (clock_read s))
      as (r2 & s2 & entry & HU & _).
    rewrite HU in He. destruct r2 as [e|].
    + rewrite (Connect_token_error env s s2 e He) in H.
      injection H as <- <-.
      exact (UpdateToken_told (clock_read s) s2 (Some e) HU).
    + apply (Hafter s2 He H).
  - apply (Hafter (clock_read s) He H).
Qed.

(** X17.  No failure is silent, and the log ends with it: when
    [Initialize] returns an error, the last entry of the log is that error
    behind the text of the step that failed (the request, the reading or
    the decoding of the answer, the dial, the sending of the token, the
    subscription), or the refusal of the token endpoint that the error
    wraps; when it returns [nil], the last entry is
    [Connected successfully]. *)
Theorem Initialize_outcome_is_the_last_entry (s s' : State) (r : option error) :
  Initialize env s = Ret r s' ->
  told "Connected successfully" r s'.
Proof.
  unfold Initialize, bind, modify_d.
  destruct (UpdateToken env (with_d (set_retries 0) s)) as [[e|] s1| | |] eqn:HU;
    try discriminate.
  - intros H. injection H as <- <-.
    apply (UpdateToken_told _ _ _ HU).
  - apply Connect_told.
Qed.

(** The last ping of a session: the clock is read once after every ping
    that was written, and never otherwise. *)
Lemma listen_loop_lastPing (fuel : nat) :
  forall s : State,
    let s' := final (listen_loop fg env fuel s) in
    (w_now s <= w_now s')%nat
    /\ (w_now s' - w_now s <= w_writes s' - w_writes s)%nat
    /\ (w_writes s <= w_writes s')%nat
    /\ lastPing (d s')
       = if (w_now s' =? w_now s)%nat then lastPing (d s)
         else clock env (pred (w_now s')).
Proof.
  induction fuel as [|fuel IH]; intros s; cbv zeta.
  { cbn [listen_loop final]. rewrite Nat.eqb_refl. repeat split; lia. }
  rewrite listen_loop_step.
  destruct (feed env (w_events s)) as [msg|err|].
  - unfold bind.
    pose proof (keeps_processMessage fg msg (event_taken s)) as Hpm.
    destruct (processMessage fg msg (event_taken s)) as [[] s1|m s1|code s1|s1];
      try contradiction; cbn [final] in Hpm; destruct Hpm as [ents Hs1];
      assert (Hd : d s1 = d s) by (rewrite Hs1; reflexivity);
      assert (Hn : w_now s1 = w_now s) by (rewrite Hs1; reflexivity);
      assert (Hw : w_writes s1 = w_writes s) by (rewrite Hs1; reflexivity).
    + specialize (IH s1). cbv zeta in IH. rewrite Hd, Hn, Hw in IH. exact IH.
    + cbn [final]. rewrite Hd, Hn, Hw, Nat.eqb_refl. repeat split; lia.
    + cbn [final]. rewrite Hd, Hn, Hw, Nat.eqb_refl. repeat split; lia.
  - cbn [final event_taken w_now w_writes d]. rewrite Nat.eqb_refl.
    repeat split; lia.
  - destruct (conn (d s)) as [c|].
    + destruct (socket_write env (w_writes s)) as [e|].
      * cbn [final event_taken written w_now w_writes d]. rewrite Nat.eqb_refl.
        repeat split; lia.
      * specialize (IH (pinged env c (event_taken s))). cbv zeta in IH.
        change (w_now (pinged env c (event_taken s))) with (S (w_now s)) in IH.
        change (w_writes (pinged env c (event_taken s))) with (S (w_writes s)) in IH.
        change (lastPing (d (pinged env c (event_taken s))))
          with (clock env (w_now s)) in IH.
        destruct IH as (H1 & H2 & H3 & H4).
        split; [lia|]. split; [lia|]. split; [lia|].
        rewrite H4.
        destruct (Nat.eqb_spec (w_now (final (listen_loop fg env fuel
                                  (pinged env c (event_taken s))))) (S (w_now s)))
          as [E|E].
        -- rewrite E. cbn [pred].
           destruct (Nat.eqb_spec (S (w_now s)) (w_now s)); [lia|reflexivity].
        -- destruct (Nat.eqb_spec (w_now (final (listen_loop fg env fuel
                                    (pinged env c (event_taken s))))) (w_now s));
             [lia|reflexivity].
    + cbn [final event_taken w_now w_writes d]. rewrite Nat.eqb_refl.
      repeat split; lia.
Qed.

(** X18.  [lastPing] is the time of the last ping that went out: during a
    session the clock is read only after a ping was written, at most once
    per write, and when the session is over [lastPing] holds the last of
    these readings, or what it held before when no ping was written. *)
Theorem Listen_records_the_last_ping (fuel : nat) (s : State) :
  let s' := final (Listen fg env fuel s) in
  (w_now s <= w_now s')%nat
  /\ (w_now s' - w_now s <= w_writes s' - w_writes s)%nat
  /\ lastPing (d s')
     = if (w_now s' =? w_now s)%nat then lastPing (d s)
       else clock env (pred (w_now s')).
Proof.
  cbv zeta. destruct (conn (d s)) as [c|] eqn:Hc.
  - rewrite (Listen_unfold fg env fuel s c Hc).
    pose proof (listen_loop_lastPing fuel s) as H. cbv zeta in H.
    destruct H as (H1 & H2 & _ & H4).
    destruct (listen_loop fg env fuel s); cbn [final closed w_now w_writes d] in *;
      auto.
  - unfold Listen, bind, get_d. rewrite Hc. cbn [panic final].
    rewrite Nat.eqb_refl. repeat split; lia.
Qed.

End Reporting.

(** The key is refused: the refusal is the last entry. *)
Lemma Initialize_outcome_is_the_last_entry_witness :
  reports
    (last (w_log (final (Initialize Samples.key_refused initial_state))) EmptyString)
    "token error: bad key".
Proof.
  assert (H : Initialize Samples.key_refused initial_state
              = Ret (Some "token error: bad key")
                    (final (Initialize Samples.key_refused initial_state)))
    by (vm_compute; reflexivity).
  exact (Initialize_outcome_is_the_last_entry Samples.key_refused _ _ _ H).
Defined.

(** The second ping of this session fails: the clock was read once. *)
Example broken_pipe_last_ping :
  lastPing (d (final (Listen Samples.no_floats Samples.broken_pipe 10
                        (Samples.connected Samples.broken_pipe))))
  = clock Samples.broken_pipe
      (w_now (Samples.connected Samples.broken_pipe)).
Proof. vm_compute. reflexivity. Qed.
